(** * LiteDBManager

    A shallow embedding of [src/litedb_manager.py], the CRUD facade over
    Python's [sqlite3] module, and the properties of its specification.

    The facade is a state-and-exception program over two pieces of state: the
    facade object itself ([db_path], [connection], [cursor]) and the state of
    the [sqlite3] library behind it.  The library is not part of the
    repository, so it enters as an interface ([Sqlite3]); every general
    theorem holds for every implementation of that interface.  Two
    implementations serve to run the facade: [Mini], a small executable
    engine for the statement shapes the facade emits, and [Spy], which
    records the calls it receives.

    Text is modelled by [string], i.e. by its bytes; whitespace and letter
    case are the ASCII ones, which is what [str.strip] and [str.upper] do on
    ASCII text. *)

From Stdlib Require Import String Ascii List ZArith Lia Bool DecimalString SpecFloat.
Import ListNotations.
#[local] Open Scope list_scope.
#[local] Open Scope string_scope.

(** ** Python data *)

(** The values [sqlite3] binds and returns natively: [None], [int], [float]
    (an IEEE 754 value), [str] and [bytes]. *)
Inductive value : Type :=
| VNone
| VInt (z : Z)
| VFloat (f : spec_float)
| VStr (s : string)
| VBytes (b : list Byte.byte).

(** A [dict] with string keys, in insertion order. *)
Definition dict (V : Type) : Type := list (string * V).

Definition keys {V} (d : dict V) : list string := map fst d.
Definition values {V} (d : dict V) : list V := map snd d.

(** [d[k] = v]: an existing key keeps its position and takes the new value,
    a new key goes last. *)
Fixpoint dict_setitem {V} (k : string) (v : V) (d : dict V) : dict V :=
  match d with
  | [] => [(k, v)]
  | (k', v') :: d' =>
      if String.eqb k k' then (k', v) :: d' else (k', v') :: dict_setitem k v d'
  end.

(** [dict(pairs)] *)
Definition dict_of {V} (pairs : list (string * V)) : dict V :=
  fold_left (fun d kv => dict_setitem (fst kv) (snd kv) d) pairs [].

(** [zip(a, b)] stops at the shorter argument. *)
Definition zip {A B} (a : list A) (b : list B) : list (A * B) := combine a b.

(** A result row as the engine returns it (a tuple) and as the facade
    returns it (a dict keyed by column name). *)
Definition row : Type := list value.
Definition record : Type := dict value.

(** [sep.join(parts)] *)
Definition join (sep : string) (parts : list string) : string :=
  String.concat sep parts.

(** The number of occurrences of a character in a text. *)
Fixpoint count_char (c : ascii) (s : string) : nat :=
  match s with
  | String x r => (if Ascii.eqb x c then 1 else 0) + count_char c r
  | EmptyString => 0
  end.

(** [str(n)] for an [int] *)
Definition str_int (z : Z) : string := NilZero.string_of_int (Z.to_int z).

(** [str(x)] for an [int] or [None] *)
Definition str_opt_int (x : option Z) : string :=
  match x with
  | Some z => str_int z
  | None => "None"
  end.

(** [c.isspace()] on an ASCII character: TAB, LF, VT, FF, CR, FS, GS, RS, US
    and the space. *)
Definition isspace (c : ascii) : bool :=
  let n := nat_of_ascii c in
  ((9 <=? n)%nat && (n <=? 13)%nat) || ((28 <=? n)%nat && (n <=? 32)%nat).

Fixpoint lstrip (s : string) : string :=
  match s with
  | String c r => if isspace c then lstrip r else s
  | EmptyString => EmptyString
  end.

Fixpoint rstrip (s : string) : string :=
  match s with
  | String c r =>
      match rstrip r with
      | EmptyString => if isspace c then EmptyString else String c EmptyString
      | r' => String c r'
      end
  | EmptyString => EmptyString
  end.

(** [s.strip()] *)
Definition strip (s : string) : string := rstrip (lstrip s).

Definition upper_char (c : ascii) : ascii :=
  let n := nat_of_ascii c in
  if (97 <=? n)%nat && (n <=? 122)%nat then ascii_of_nat (n - 32) else c.

(** [s.upper()] *)
Fixpoint upper (s : string) : string :=
  match s with
  | String c r => String (upper_char c) (upper r)
  | EmptyString => EmptyString
  end.

(** [s.startswith(p)] *)
Definition startswith (s p : string) : bool := String.prefix p s.

(** Truth value of an [Optional[int]]: [None] and [0] are false. *)
Definition truthy_int (limit : option Z) : bool :=
  match limit with
  | Some z => negb (Z.eqb z 0)
  | None => false
  end.

(** ** Exceptions *)

(** The subclasses of [sqlite3.Error]. *)
Inductive sqlite_kind : Type :=
| DatabaseError | OperationalError | IntegrityError | ProgrammingError
| InterfaceError | DataError | InternalError | NotSupportedError.

(** Exceptions; [Sqlite3Error] stands for the instances of [sqlite3.Error],
    the only ones [except sqlite3.Error] catches. *)
Inductive exn : Type :=
| Sqlite3Error (kind : sqlite_kind) (msg : string)
| AttributeError (msg : string)
| TypeError (msg : string)
| IndexError (msg : string)
| OverflowError (msg : string)
| ValueError (msg : string).

(** How a call ends: with a value or with an exception in the caller. *)
Inductive outcome (A : Type) : Type :=
| Returned (a : A)
| Raised (e : exn).
Arguments Returned {A} a.
Arguments Raised {A} e.

(** ** The engine interface *)

(** A library call: it ends with a result or an exception and leaves the
    library in a new state either way. *)
Definition call (E A : Type) : Type := E -> (exn + A) * E.

(** What the facade uses of [sqlite3], over a library state [E] that holds
    the connection and its cursor.  [cursor_description] gives the column
    names [d[0]] of [cursor.description], or [None]. *)
Class Sqlite3 (E : Type) : Type := {
  sqlite3_connect : string -> call E unit;
  connection_cursor : call E unit;
  connection_commit : call E unit;
  connection_close : call E unit;
  cursor_execute : string -> list value -> call E unit;
  cursor_executemany : string -> list (list value) -> call E unit;
  cursor_fetchall : call E (list row);
  cursor_description : E -> option (list string);
  cursor_lastrowid : E -> option Z;
  cursor_rowcount : E -> Z
}.

(** ** The facade *)

(** The two objects the facade holds once connected. *)
Inductive Connection : Type := ConnectionObject.
Inductive Cursor : Type := CursorObject.

Record LiteDBManager : Type := mkLiteDBManager {
  db_path : string;
  connection : option Connection;
  cursor : option Cursor
}.

Section Facade.

Context {E : Type} {engine : Sqlite3 E}.

(** The state a method runs in: the facade object, the library behind it
    and what has been printed so far. *)
Record world : Type := mkWorld {
  self : LiteDBManager;
  sqlite : E;
  stdout : list string
}.

Definition M (A : Type) : Type := world -> outcome A * world.

Definition ret {A} (a : A) : M A := fun w => (Returned a, w).

Definition bind {A B} (m : M A) (k : A -> M B) : M B :=
  fun w =>
    match m w with
    | (Returned a, w') => k a w'
    | (Raised e, w') => (Raised e, w')
    end.

Definition raise {A} (e : exn) : M A := fun w => (Raised e, w).

(** [try: body except sqlite3.Error as e: handler(str(e))] *)
Definition try_except {A} (body : M A) (handler : string -> M A) : M A :=
  fun w =>
    match body w with
    | (Raised (Sqlite3Error _ msg), w') => handler msg w'
    | r => r
    end.

Definition print (line : string) : M unit :=
  fun w => (Returned tt, mkWorld (self w) (sqlite w) (stdout w ++ [line])%list).

(** A call into the library. *)
Definition lift {A} (c : call E A) : M A :=
  fun w =>
    match c (sqlite w) with
    | (inr a, e') => (Returned a, mkWorld (self w) e' (stdout w))
    | (inl x, e') => (Raised x, mkWorld (self w) e' (stdout w))
    end.

Definition no_attribute (attr : string) : exn :=
  AttributeError ("'NoneType' object has no attribute '" ++ attr ++ "'").

(** [self.cursor.attr]: fails on [None]. *)
Definition self_cursor (attr : string) : M Cursor :=
  fun w =>
    match cursor (self w) with
    | Some c => (Returned c, w)
    | None => (Raised (no_attribute attr), w)
    end.

(** [self.connection.attr]: fails on [None]. *)
Definition self_connection (attr : string) : M Connection :=
  fun w =>
    match connection (self w) with
    | Some c => (Returned c, w)
    | None => (Raised (no_attribute attr), w)
    end.

Definition set_connection (c : option Connection) : M unit :=
  fun w =>
    (Returned tt,
     mkWorld (mkLiteDBManager (db_path (self w)) c (cursor (self w)))
             (sqlite w) (stdout w)).

Definition set_cursor (c : option Cursor) : M unit :=
  fun w =>
    (Returned tt,
     mkWorld (mkLiteDBManager (db_path (self w)) (connection (self w)) c)
             (sqlite w) (stdout w)).

Definition get_db_path : M string := fun w => (Returned (db_path (self w)), w).

Definition get_connection : M (option Connection) :=
  fun w => (Returned (connection (self w)), w).

Definition read {A} (f : E -> A) : M A := fun w => (Returned (f (sqlite w)), w).

End Facade.

Arguments world E : clear implicits.
Arguments M E A : clear implicits.

Declare Scope py_scope.
Delimit Scope py_scope with py.
Notation "x <- m ;; k" := (bind m (fun x => k))
  (at level 61, m at next level, right associativity) : py_scope.
Notation "m ;; k" := (bind m (fun _ => k))
  (at level 61, right associativity) : py_scope.

(** ** Statement text

    The statements the methods build, as functions of their arguments.
    Table and column names go into the text as they are; values never do,
    they travel in the parameter list. *)

Definition create_table_sql (table_name : string) (columns : dict string) : string :=
  let column_defs := map (fun c => fst c ++ " " ++ snd c) columns in
  "CREATE TABLE IF NOT EXISTS " ++ table_name ++ " (" ++ join ", " column_defs ++ ")".

(** [', '.join(['?' for _ in data])] *)
Definition placeholders_of {V} (data : dict V) : string :=
  join ", " (map (fun _ => "?") data).

Definition insert_sql {V} (table_name : string) (data : dict V) : string :=
  let columns := join ", " (keys data) in
  let placeholders := placeholders_of data in
  "INSERT INTO " ++ table_name ++ " (" ++ columns ++ ") VALUES (" ++ placeholders ++ ")".

(** [" AND ".join([f"{key} = ?" for key in conditions.keys()])] *)
Definition where_clause_of {V} (conditions : dict V) : string :=
  join " AND " (map (fun key => key ++ " = ?") (keys conditions)).

(** [", ".join([f"{key} = ?" for key in data.keys()])] *)
Definition set_clause_of {V} (data : dict V) : string :=
  join ", " (map (fun key => key ++ " = ?") (keys data)).

(** The statement and the parameters of [select]; [if conditions:] is
    false for [None] and for the empty dict, [if limit:] for [None] and
    for 0. *)
Definition select_statement (table_name : string) (conditions : option record)
    (columns : string) (limit : option Z) : string * list value :=
  let sql := "SELECT " ++ columns ++ " FROM " ++ table_name in
  let params := [] in
  let '(sql, params) :=
    match conditions with
    | Some ((_ :: _) as conditions) =>
        let where_clause := where_clause_of conditions in
        (sql ++ " WHERE " ++ where_clause, values conditions)
    | Some [] | None => (sql, params)
    end in
  let sql :=
    if truthy_int limit then sql ++ " LIMIT " ++ str_opt_int limit else sql in
  (sql, params).

Definition update_statement (table_name : string) (data conditions : record)
    : string * list value :=
  let set_clause := set_clause_of data in
  let where_clause := where_clause_of conditions in
  let sql := "UPDATE " ++ table_name ++ " SET " ++ set_clause ++ " WHERE " ++ where_clause in
  let params := (values data ++ values conditions)%list in
  (sql, params).

Definition delete_statement (table_name : string) (conditions : record)
    : string * list value :=
  let where_clause := where_clause_of conditions in
  let sql := "DELETE FROM " ++ table_name ++ " WHERE " ++ where_clause in
  let params := values conditions in
  (sql, params).

Definition catalog_sql : string :=
  "SELECT name FROM sqlite_master WHERE type='table';".

(** [v != s] for a string [s] *)
Definition differs_from_str (v : value) (s : string) : bool :=
  match v with
  | VStr t => negb (String.eqb t s)
  | _ => true
  end.

(** [[table[0] for table in tables if table[0] != 'sqlite_sequence']];
    [table[0]] fails on an empty tuple. *)
Fixpoint first_fields (tables : list row) : exn + list value :=
  match tables with
  | [] => inr []
  | [] :: _ => inl (IndexError "tuple index out of range")
  | (name :: _) :: rest =>
      match first_fields rest with
      | inl x => inl x
      | inr names =>
          inr (if differs_from_str name "sqlite_sequence" then name :: names else names)
      end
  end.

(** [dict(zip(column_names, row))] for every row *)
Definition as_records (column_names : list string) (rows : list row) : list record :=
  map (fun r => dict_of (zip column_names r)) rows.

(** [sql.strip().upper().startswith('SELECT')] *)
Definition is_query (sql : string) : bool :=
  startswith (upper (strip sql)) "SELECT".

Definition all_chars (p : ascii -> bool) (s : string) : bool :=
  forallb p (list_ascii_of_string s).

(** The specification's wording of the same test: after leading whitespace
    the text begins with the letters of SELECT, in either case. *)
Definition begins_with_select (sql : string) : Prop :=
  exists blanks word rest,
    sql = blanks ++ word ++ rest
    /\ all_chars isspace blanks = true
    /\ upper word = "SELECT".

(** ** The methods of [LiteDBManager] *)

Section Methods.

Context {E : Type} {engine : Sqlite3 E}.
#[local] Open Scope py_scope.

(** [self.cursor.execute(sql, params)] and its siblings: the attribute
    access comes first and fails on [None]. *)
Definition execute (sql : string) (params : list value) : M E unit :=
  self_cursor "execute" ;; lift (cursor_execute sql params).

Definition executemany (sql : string) (seq : list (list value)) : M E unit :=
  self_cursor "executemany" ;; lift (cursor_executemany sql seq).

Definition fetchall : M E (list row) :=
  self_cursor "fetchall" ;; lift cursor_fetchall.

Definition commit : M E unit :=
  self_connection "commit" ;; lift connection_commit.

Definition lastrowid : M E (option Z) :=
  self_cursor "lastrowid" ;; read cursor_lastrowid.

Definition rowcount : M E Z :=
  self_cursor "rowcount" ;; read cursor_rowcount.

(** [[description[0] for description in self.cursor.description]]: [None]
    cannot be iterated. *)
Definition column_names : M E (list string) :=
  self_cursor "description" ;;
  description <- read cursor_description ;;
  match description with
  | Some names => ret names
  | None => raise (TypeError "'NoneType' object is not iterable")
  end.

Definition connect : M E unit :=
  try_except
    (path <- get_db_path ;;
     lift (sqlite3_connect path) ;;
     set_connection (Some ConnectionObject) ;;
     self_connection "cursor" ;;
     lift connection_cursor ;;
     set_cursor (Some CursorObject) ;;
     print ("成功连接到数据库: " ++ path))
    (fun e => print ("连接数据库失败: " ++ e)).

Definition __init__ (path : string) : M E unit :=
  fun w => connect (mkWorld (mkLiteDBManager path None None) (sqlite w) (stdout w)).

Definition disconnect : M E unit :=
  c <- get_connection ;;
  match c with
  | Some _ =>
      lift connection_close ;;
      print "数据库连接已关闭"
  | None => ret tt
  end.

Definition create_table (table_name : string) (columns : dict string) : M E bool :=
  try_except
    (let sql := create_table_sql table_name columns in
     execute sql [] ;;
     commit ;;
     print ("表 '" ++ table_name ++ "' 创建成功") ;;
     ret true)
    (fun e => print ("创建表失败: " ++ e) ;; ret false).

Definition insert (table_name : string) (data : record) : M E bool :=
  try_except
    (let values := values data in
     let sql := insert_sql table_name data in
     execute sql values ;;
     commit ;;
     id <- lastrowid ;;
     print ("数据插入成功，ID: " ++ str_opt_int id) ;;
     ret true)
    (fun e => print ("插入数据失败: " ++ e) ;; ret false).

Definition bulk_insert (table_name : string) (data_list : list record) : M E bool :=
  match data_list with
  | [] => ret true
  | first :: _ =>
      try_except
        (let sql := insert_sql table_name first in
         let values_list := map (fun data => values data) data_list in
         executemany sql values_list ;;
         commit ;;
         print ("批量插入成功，影响行数: " ++ str_int (Z.of_nat (length data_list))) ;;
         ret true)
        (fun e => print ("批量插入失败: " ++ e) ;; ret false)
  end.

Definition select (table_name : string) (conditions : option record)
    (columns : string) (limit : option Z) : M E (list record) :=
  try_except
    (let '(sql, params) := select_statement table_name conditions columns limit in
     execute sql params ;;
     rows <- fetchall ;;
     column_names <- column_names ;;
     ret (as_records column_names rows))
    (fun e => print ("查询数据失败: " ++ e) ;; ret []).

Definition update (table_name : string) (data conditions : record) : M E bool :=
  try_except
    (let '(sql, params) := update_statement table_name data conditions in
     execute sql params ;;
     commit ;;
     n <- rowcount ;;
     print ("数据更新成功，影响行数: " ++ str_int n) ;;
     ret true)
    (fun e => print ("更新数据失败: " ++ e) ;; ret false).

Definition delete (table_name : string) (conditions : record) : M E bool :=
  try_except
    (let '(sql, params) := delete_statement table_name conditions in
     execute sql params ;;
     commit ;;
     n <- rowcount ;;
     print ("数据删除成功，影响行数: " ++ str_int n) ;;
     ret true)
    (fun e => print ("删除数据失败: " ++ e) ;; ret false).

Definition get_all_tables : M E (list value) :=
  try_except
    (execute catalog_sql [] ;;
     tables <- fetchall ;;
     match first_fields tables with
     | inr names => ret names
     | inl x => raise x
     end)
    (fun e => print ("获取表名失败: " ++ e) ;; ret []).

Definition execute_sql (sql : string) (params : option (list value)) : M E (list record) :=
  try_except
    (let params := match params with None => [] | Some p => p end in
     execute sql params ;;
     if is_query sql then
       rows <- fetchall ;;
       column_names <- column_names ;;
       ret (as_records column_names rows)
     else
       commit ;;
       print "SQL语句执行成功" ;;
       ret [])
    (fun e => print ("执行SQL失败: " ++ e) ;; ret []).

(** [LiteDBManager(path)] in a library state [e], nothing printed yet. *)
Definition new (path : string) (e : E) : outcome unit * world E :=
  __init__ path (mkWorld (mkLiteDBManager path None None) e []).

End Methods.

(** ** An executable engine

    [Mini] implements the [Sqlite3] interface for the statements the facade
    emits: CREATE TABLE, INSERT, SELECT, UPDATE and DELETE with [col = ?]
    predicates, and the catalog query on [sqlite_master].  It follows
    SQLite on these: names are matched without regard to ASCII case, an
    INTEGER PRIMARY KEY column is the row id, rows come back in row id
    order, [NULL] equals nothing, a negative LIMIT is no limit, and a
    statement that stops after WHERE is incomplete input.  Column
    constraints other than the row id are read and not enforced, values are
    stored as bound (no type affinity), and any other statement is reported
    as a syntax error.  It serves to run the facade on concrete inputs; no
    general theorem depends on it. *)

Module Mini.

Inductive token : Type :=
| TWord (w : string)
| TNumber (z : Z)
| TString (s : string)
| TSymbol (c : ascii).

Inductive lex_state : Type :=
| Idle
| InWord (w : string)
| InQuote (q : string).

Definition between (lo hi n : nat) : bool := (lo <=? n)%nat && (n <=? hi)%nat.

Definition is_digit (c : ascii) : bool := between 48 57 (nat_of_ascii c).

(** Letters, digits, [_], [$] and the bytes of non-ASCII characters. *)
Definition is_word_char (c : ascii) : bool :=
  let n := nat_of_ascii c in
  between 65 90 n || between 97 122 n || between 48 57 n
  || (n =? 95)%nat || (n =? 36)%nat || (128 <=? n)%nat.

Definition is_blank (c : ascii) : bool :=
  let n := nat_of_ascii c in
  (n =? 32)%nat || between 9 10 n || between 12 13 n.

Definition is_symbol (c : ascii) : bool :=
  existsb (Ascii.eqb c) ["("; ")"; ","; "="; "?"; "*"; ";"; "-"]%char.

Definition push (w : string) (c : ascii) : string := w ++ String c EmptyString.

(** [s] between double quotes *)
Definition quoted (s : string) : string :=
  String (ascii_of_nat 34) s ++ String (ascii_of_nat 34) EmptyString.

Definition word_token (w : string) : string + token :=
  match w with
  | String c _ =>
      if is_digit c then
        match NilZero.uint_of_string w with
        | Some u => inr (TNumber (Z.of_uint u))
        | None => inl ("unrecognized token: " ++ quoted w)
        end
      else inr (TWord w)
  | EmptyString => inl "unrecognized token"
  end.

Definition and_then {A B} (r : string + A) (k : A -> string + B) : string + B :=
  match r with
  | inr a => k a
  | inl msg => inl msg
  end.

Definition flush (st : lex_state) (rest : string + list token) : string + list token :=
  match st with
  | InWord w =>
      and_then (word_token w) (fun t => and_then rest (fun ts => inr (t :: ts)))
  | _ => rest
  end.

Fixpoint lex (s : string) (st : lex_state) : string + list token :=
  match s with
  | EmptyString =>
      match st with
      | InQuote q => inl ("unrecognized token: " ++ quoted ("'" ++ q))
      | _ => flush st (inr [])
      end
  | String c r =>
      match st with
      | InQuote q =>
          if Ascii.eqb c "'"
          then and_then (lex r Idle) (fun ts => inr (TString q :: ts))
          else lex r (InQuote (push q c))
      | _ =>
          if is_word_char c then
            lex r (InWord (push (match st with InWord w => w | _ => EmptyString end) c))
          else
            flush st
              (if is_blank c then lex r Idle
               else if Ascii.eqb c "'" then lex r (InQuote EmptyString)
               else if is_symbol c
                    then and_then (lex r Idle) (fun ts => inr (TSymbol c :: ts))
                    else inl ("unrecognized token: " ++ quoted (String c EmptyString)))
      end
  end.

Definition token_text (t : token) : string :=
  match t with
  | TWord w => w
  | TNumber z => str_int z
  | TString s => "'" ++ s ++ "'"
  | TSymbol c => String c EmptyString
  end.

Definition syntax_error (ts : list token) : string :=
  match ts with
  | [] => "incomplete input"
  | t :: _ => "near " ++ quoted (token_text t) ++ ": syntax error"
  end.

(** Names are compared without regard to ASCII case. *)
Definition same_name (a b : string) : bool := String.eqb (upper a) (upper b).

Definition reserved : list string :=
  ["ADD"; "ALL"; "ALTER"; "AND"; "AS"; "AUTOINCREMENT"; "BETWEEN"; "CASE";
   "CHECK"; "COLLATE"; "COMMIT"; "CONSTRAINT"; "CREATE"; "DEFAULT";
   "DELETE"; "DISTINCT"; "DROP"; "ELSE"; "ESCAPE"; "EXCEPT"; "EXISTS";
   "FOREIGN"; "FROM"; "GROUP"; "HAVING"; "IN"; "INDEX"; "INSERT";
   "INTERSECT"; "INTO"; "IS"; "ISNULL"; "JOIN"; "LIMIT"; "NOT"; "NOTHING";
   "NOTNULL"; "NULL"; "ON"; "OR"; "ORDER"; "PRIMARY"; "REFERENCES";
   "SELECT"; "SET"; "TABLE"; "THEN"; "TO"; "TRANSACTION"; "UNION"; "UNIQUE";
   "UPDATE"; "USING"; "VALUES"; "WHEN"; "WHERE"].

Definition is_keyword (w : string) : bool := existsb (String.eqb (upper w)) reserved.

(** The right-hand side of a predicate [col = ...]. *)
Inductive operand : Type :=
| Mark
| Literal (v : value).

Inductive stmt : Type :=
| Create (if_not_exists : bool) (name : string) (cols : list (string * list string))
| Insert (name : string) (cols : list string) (marks : nat)
| Select (cols : option (list string)) (name : string)
         (filter : list (string * operand)) (limit : option Z)
| Update (name : string) (sets : list string) (filter : list (string * operand))
| Delete (name : string) (filter : list (string * operand)).

Definition expect (k : string) (ts : list token) : string + list token :=
  match ts with
  | TWord w :: r => if String.eqb (upper w) k then inr r else inl (syntax_error ts)
  | _ => inl (syntax_error ts)
  end.

Definition expect_symbol (c : ascii) (ts : list token) : string + list token :=
  match ts with
  | TSymbol d :: r => if Ascii.eqb c d then inr r else inl (syntax_error ts)
  | _ => inl (syntax_error ts)
  end.

Definition name_of (ts : list token) : string + (string * list token) :=
  match ts with
  | TWord w :: r => if is_keyword w then inl (syntax_error ts) else inr (w, r)
  | _ => inl (syntax_error ts)
  end.

(** The end of a statement, with or without a semicolon. *)
Definition finish (ts : list token) (s : stmt) : string + stmt :=
  match ts with
  | [] | [TSymbol ";"%char] => inr s
  | _ => inl (syntax_error ts)
  end.

(** [name type-words, name type-words, ... )] *)
Fixpoint column_defs (ts : list token) (cur : option (string * list string))
    (acc : list (string * list string))
    : string + (list (string * list string) * list token) :=
  match ts with
  | TWord w :: r =>
      match cur with
      | None => if is_keyword w then inl (syntax_error ts) else column_defs r (Some (w, [])) acc
      | Some (n, ty) => column_defs r (Some (n, (ty ++ [w])%list)) acc
      end
  | TSymbol c :: r =>
      match cur with
      | Some d =>
          if Ascii.eqb c "," then column_defs r None (acc ++ [d])%list
          else if Ascii.eqb c ")" then inr ((acc ++ [d])%list, r)
          else inl (syntax_error ts)
      | None => inl (syntax_error ts)
      end
  | _ => inl (syntax_error ts)
  end.

(** [name, name, ... )] *)
Fixpoint names (ts : list token) (want_name : bool) (acc : list string)
    : string + (list string * list token) :=
  match ts with
  | TWord w :: r =>
      if want_name && negb (is_keyword w) then names r false (acc ++ [w])%list
      else inl (syntax_error ts)
  | TSymbol c :: r =>
      if want_name then inl (syntax_error ts)
      else if Ascii.eqb c "," then names r true acc
      else if Ascii.eqb c ")" then inr (acc, r)
      else inl (syntax_error ts)
  | _ => inl (syntax_error ts)
  end.

(** [?, ?, ... )] *)
Fixpoint marks_of (ts : list token) (want_mark : bool) (n : nat)
    : string + (nat * list token) :=
  match ts with
  | TSymbol c :: r =>
      if want_mark then
        if Ascii.eqb c "?" then marks_of r false (S n) else inl (syntax_error ts)
      else if Ascii.eqb c "," then marks_of r true n
      else if Ascii.eqb c ")" then inr (n, r)
      else inl (syntax_error ts)
  | _ => inl (syntax_error ts)
  end.

Inductive phase : Type := WantName | WantEq (n : string) | WantOperand (n : string) | WantSep.

(** [col = operand sep col = operand ...]: at least one predicate, the
    rest of the tokens is returned. *)
Fixpoint predicates (sep : token -> bool) (ts : list token) (ph : phase)
    (acc : list (string * operand)) : string + (list (string * operand) * list token) :=
  match ts with
  | [] =>
      match ph with
      | WantSep => inr (acc, [])
      | _ => inl (syntax_error ts)
      end
  | t :: r =>
      match ph, t with
      | WantName, TWord w =>
          if is_keyword w then inl (syntax_error ts) else predicates sep r (WantEq w) acc
      | WantEq n, TSymbol c =>
          if Ascii.eqb c "=" then predicates sep r (WantOperand n) acc
          else inl (syntax_error ts)
      | WantOperand n, TSymbol c =>
          if Ascii.eqb c "?" then predicates sep r WantSep (acc ++ [(n, Mark)])%list
          else inl (syntax_error ts)
      | WantOperand n, TString s =>
          predicates sep r WantSep (acc ++ [(n, Literal (VStr s))])%list
      | WantOperand n, TNumber z =>
          predicates sep r WantSep (acc ++ [(n, Literal (VInt z))])%list
      | WantSep, _ =>
          if sep t then predicates sep r WantName acc else inr (acc, ts)
      | _, _ => inl (syntax_error ts)
      end
  end.

Definition is_and (t : token) : bool :=
  match t with
  | TWord w => String.eqb (upper w) "AND"
  | _ => false
  end.

Definition is_comma (t : token) : bool :=
  match t with
  | TSymbol c => Ascii.eqb c ","
  | _ => false
  end.

Definition starts_with_word (k : string) (ts : list token) : bool :=
  match ts with
  | TWord w :: _ => String.eqb (upper w) k
  | _ => false
  end.

(** [[WHERE predicates]] *)
Definition where_opt (ts : list token)
    : string + (list (string * operand) * list token) :=
  if starts_with_word "WHERE" ts then predicates is_and (tl ts) WantName []
  else inr ([], ts).

(** [[LIMIT [-] n]] *)
Definition limit_opt (ts : list token) : string + (option Z * list token) :=
  if starts_with_word "LIMIT" ts then
    match tl ts with
    | TNumber z :: r => inr (Some z, r)
    | TSymbol c :: TNumber z :: r =>
        if Ascii.eqb c "-" then inr (Some (- z)%Z, r) else inl (syntax_error (tl ts))
    | r => inl (syntax_error r)
    end
  else inr (None, ts).

Definition parse_create (ts : list token) : string + stmt :=
  and_then (expect "TABLE" ts) (fun ts =>
  let flag := starts_with_word "IF" ts in
  and_then (if flag
            then and_then (expect "IF" ts) (fun ts =>
                 and_then (expect "NOT" ts) (expect "EXISTS"))
            else inr ts) (fun ts =>
  and_then (name_of ts) (fun '(name, ts) =>
  and_then (expect_symbol "(" ts) (fun ts =>
  and_then (column_defs ts None []) (fun '(cols, ts) =>
  finish ts (Create flag name cols)))))).

Definition parse_insert (ts : list token) : string + stmt :=
  and_then (expect "INTO" ts) (fun ts =>
  and_then (name_of ts) (fun '(name, ts) =>
  and_then (expect_symbol "(" ts) (fun ts =>
  and_then (names ts true []) (fun '(cols, ts) =>
  and_then (expect "VALUES" ts) (fun ts =>
  and_then (expect_symbol "(" ts) (fun ts =>
  and_then (marks_of ts true 0) (fun '(n, ts) =>
  finish ts (Insert name cols n)))))))).

(** [* FROM] or [name, name, ... FROM] *)
Fixpoint select_list (ts : list token) (want_name : bool) (acc : list string)
    : string + (list string * list token) :=
  match ts with
  | TWord w :: r =>
      if want_name then
        if is_keyword w then inl (syntax_error ts) else select_list r false (acc ++ [w])%list
      else if String.eqb (upper w) "FROM" then inr (acc, r)
      else inl (syntax_error ts)
  | TSymbol c :: r =>
      if negb want_name && Ascii.eqb c "," then select_list r true acc
      else inl (syntax_error ts)
  | _ => inl (syntax_error ts)
  end.

Definition parse_select (ts : list token) : string + stmt :=
  and_then
    (match ts with
     | TSymbol c :: r =>
         if Ascii.eqb c "*"
         then and_then (expect "FROM" r) (fun r => inr (None, r))
         else inl (syntax_error ts)
     | _ => and_then (select_list ts true []) (fun '(cols, r) => inr (Some cols, r))
     end) (fun '(cols, ts) =>
  and_then (name_of ts) (fun '(name, ts) =>
  and_then (where_opt ts) (fun '(filter, ts) =>
  and_then (limit_opt ts) (fun '(limit, ts) =>
  finish ts (Select cols name filter limit))))).

Definition marks_only (ps : list (string * operand)) : bool :=
  forallb (fun p => match snd p with Mark => true | Literal _ => false end) ps.

Definition parse_update (ts : list token) : string + stmt :=
  and_then (name_of ts) (fun '(name, ts) =>
  and_then (expect "SET" ts) (fun ts =>
  and_then (predicates is_comma ts WantName []) (fun '(sets, ts) =>
  if marks_only sets then
    and_then (where_opt ts) (fun '(filter, ts) =>
    finish ts (Update name (map fst sets) filter))
  else inl "unsupported SET clause"))).

Definition parse_delete (ts : list token) : string + stmt :=
  and_then (expect "FROM" ts) (fun ts =>
  and_then (name_of ts) (fun '(name, ts) =>
  and_then (where_opt ts) (fun '(filter, ts) =>
  finish ts (Delete name filter)))).

Definition parse (sql : string) : string + stmt :=
  and_then (lex sql Idle) (fun ts =>
  if starts_with_word "CREATE" ts then parse_create (tl ts)
  else if starts_with_word "INSERT" ts then parse_insert (tl ts)
  else if starts_with_word "SELECT" ts then parse_select (tl ts)
  else if starts_with_word "UPDATE" ts then parse_update (tl ts)
  else if starts_with_word "DELETE" ts then parse_delete (tl ts)
  else inl (syntax_error ts)).

(** *** The database *)

(** A table: its declared columns, the column that is the row id (an
    INTEGER PRIMARY KEY), the text it was created with, and its rows by
    ascending row id. *)
Record table : Type := mkTable {
  t_name : string;
  t_cols : list string;
  t_rowid : option string;
  t_sql : string;
  t_rows : list (Z * row)
}.

(** The library state: the paths at which no file can be opened, the
    connection's life cycle, the tables, and the cursor's result, column
    names, [lastrowid] and [rowcount]; [commits] counts the commits. *)
Record state : Type := mkState {
  unopenable : list string;
  opened : bool;
  closed : bool;
  tables : list table;
  pending : list row;
  described : option (list string);
  last_id : option Z;
  affected : Z;
  commits : nat
}.

Definition ok {A} (a : A) (st : state) : (exn + A) * state := (inr a, st).

Definition fail {A} (k : sqlite_kind) (msg : string) (st : state) : (exn + A) * state :=
  (inl (Sqlite3Error k msg), st).

(** The state after a statement ran: new tables and a new cursor result. *)
Definition after (st : state) (ts : list table) (rows : list row)
    (names : option (list string)) (id : option Z) (n : Z) : state :=
  mkState (unopenable st) (opened st) (closed st) ts rows names id n (commits st).

Definition usable (st : state) : bool := opened st && negb (closed st).

Fixpoint find_table (name : string) (ts : list table) : option table :=
  match ts with
  | [] => None
  | t :: r => if same_name name (t_name t) then Some t else find_table name r
  end.

Fixpoint replace_table (t : table) (ts : list table) : list table :=
  match ts with
  | [] => []
  | u :: r => if same_name (t_name t) (t_name u) then t :: r else u :: replace_table t r
  end.

Definition has_column (cols : list string) (c : string) : bool :=
  existsb (same_name c) cols.

(** The first of [cs] that is not among [cols]. *)
Definition unknown_column (cols cs : list string) : option string :=
  find (fun c => negb (has_column cols c)) cs.

Fixpoint duplicate (cs : list string) : option string :=
  match cs with
  | [] => None
  | c :: r => if has_column r c then Some c else duplicate r
  end.

Fixpoint lookup (c : string) (bound : list (string * value)) : option value :=
  match bound with
  | [] => None
  | (k, v) :: r => if same_name c k then Some v else lookup c r
  end.

Fixpoint adjacent (a b : string) (ws : list string) : bool :=
  match ws with
  | x :: ((y :: _) as r) => (String.eqb x a && String.eqb y b) || adjacent a b r
  | _ => false
  end.

(** [INTEGER PRIMARY KEY] makes the column the row id. *)
Definition is_rowid (ty : list string) : bool :=
  match map upper ty with
  | t :: r => String.eqb t "INTEGER" && adjacent "PRIMARY" "KEY" (t :: r)
  | [] => false
  end.

Definition autoincrement (cols : list (string * list string)) : bool :=
  existsb (fun c => existsb (fun w => String.eqb (upper w) "AUTOINCREMENT") (snd c)) cols.

Definition sequence_table : table :=
  mkTable "sqlite_sequence" ["name"; "seq"] None "CREATE TABLE sqlite_sequence(name,seq)" [].

Definition run_create (flag : bool) (name : string) (cols : list (string * list string))
    (sql : string) (st : state) : (exn + unit) * state :=
  if startswith (upper name) "SQLITE_" then
    fail OperationalError ("object name reserved for internal use: " ++ name) st
  else
    match find_table name (tables st) with
    | Some _ =>
        if flag then ok tt (after st (tables st) [] None (last_id st) (-1))
        else fail OperationalError ("table " ++ name ++ " already exists") st
    | None =>
        match duplicate (map fst cols) with
        | Some c => fail OperationalError ("duplicate column name: " ++ c) st
        | None =>
            let t := mkTable name (map fst cols)
                       (option_map fst (find (fun c => is_rowid (snd c)) cols)) sql [] in
            let extra :=
              if autoincrement cols then
                match find_table "sqlite_sequence" (tables st) with
                | Some _ => []
                | None => [sequence_table]
                end
              else [] in
            ok tt (after st (tables st ++ t :: extra)%list [] None (last_id st) (-1))
        end
    end.

Definition next_rowid (rows : list (Z * row)) : Z :=
  1 + fold_right (fun r m => Z.max (fst r) m) 0%Z rows.

Definition has_rowid (id : Z) (rows : list (Z * row)) : bool :=
  existsb (fun r => Z.eqb (fst r) id) rows.

(** Insertion by ascending row id. *)
Fixpoint place (r : Z * row) (rows : list (Z * row)) : list (Z * row) :=
  match rows with
  | [] => [r]
  | x :: rest => if (fst r <? fst x)%Z then r :: rows else x :: place r rest
  end.

Definition bindings_error (uses supplied : nat) : string :=
  "Incorrect number of bindings supplied. The current statement uses "
  ++ str_int (Z.of_nat uses) ++ ", and there are " ++ str_int (Z.of_nat supplied)
  ++ " supplied.".

Definition run_insert (name : string) (cols : list string) (marks : nat)
    (params : list value) (st : state) : (exn + unit) * state :=
  match find_table name (tables st) with
  | None => fail OperationalError ("no such table: " ++ name) st
  | Some t =>
      match unknown_column (t_cols t) cols with
      | Some c =>
          fail OperationalError ("table " ++ t_name t ++ " has no column named " ++ c) st
      | None =>
          if negb (length cols =? marks)%nat then
            fail OperationalError
              (str_int (Z.of_nat marks) ++ " values for "
               ++ str_int (Z.of_nat (length cols)) ++ " columns") st
          else if negb (length params =? marks)%nat then
            fail ProgrammingError (bindings_error marks (length params)) st
          else
            let bound := combine cols params in
            let given c := match lookup c bound with Some v => v | None => VNone end in
            let store id :=
              let r := map (fun c =>
                              match t_rowid t with
                              | Some k => if same_name c k then VInt id else given c
                              | None => given c
                              end) (t_cols t) in
              let t' := mkTable (t_name t) (t_cols t) (t_rowid t) (t_sql t)
                          (place (id, r) (t_rows t)) in
              ok tt (after st (replace_table t' (tables st)) [] None (Some id) 1) in
            match t_rowid t with
            | None => store (next_rowid (t_rows t))
            | Some k =>
                match given k with
                | VNone => store (next_rowid (t_rows t))
                | VInt id =>
                    if has_rowid id (t_rows t) then
                      fail IntegrityError
                        ("UNIQUE constraint failed: " ++ t_name t ++ "." ++ k) st
                    else store id
                | _ => fail IntegrityError "datatype mismatch" st
                end
            end
      end
  end.

(** SQL equality on stored values: [NULL] equals nothing, values of
    different types differ. *)
Definition sql_equal (a b : value) : bool :=
  match a, b with
  | VInt x, VInt y => Z.eqb x y
  | VStr x, VStr y => String.eqb x y
  | VFloat x, VFloat y => SFeqb x y
  | VBytes x, VBytes y =>
      (length x =? length y)%nat && forallb (fun p => Byte.eqb (fst p) (snd p)) (combine x y)
  | _, _ => false
  end.

Definition count_marks (ps : list (string * operand)) : nat :=
  length (filter (fun p => match snd p with Mark => true | Literal _ => false end) ps).

(** The predicates with the parameters put in for the marks, in order. *)
Fixpoint resolve (ps : list (string * operand)) (params : list value)
    : list (string * value) :=
  match ps with
  | [] => []
  | (c, Literal v) :: r => (c, v) :: resolve r params
  | (c, Mark) :: r =>
      match params with
      | v :: params' => (c, v) :: resolve r params'
      | [] => (c, VNone) :: resolve r []
      end
  end.

(** The value of column [c] in a row laid out by [cols]. *)
Definition field (cols : list string) (r : row) (c : string) : value :=
  match lookup c (combine cols r) with
  | Some v => v
  | None => VNone
  end.

Definition satisfies (cols : list string) (conds : list (string * value)) (r : row) : bool :=
  forallb (fun p => sql_equal (field cols r (fst p)) (snd p)) conds.

Definition master_cols : list string := ["type"; "name"; "tbl_name"; "rootpage"; "sql"].

Fixpoint master_rows (ts : list table) (page : Z) : list row :=
  match ts with
  | [] => []
  | t :: r =>
      [VStr "table"; VStr (t_name t); VStr (t_name t); VInt page; VStr (t_sql t)]
      :: master_rows r (page + 1)
  end.

(** The columns and rows a SELECT reads: a table or the catalog. *)
Definition source (name : string) (st : state) : option (list string * list row) :=
  if same_name name "sqlite_master" then Some (master_cols, master_rows (tables st) 2)
  else option_map (fun t => (t_cols t, map snd (t_rows t))) (find_table name (tables st)).

Definition run_select (cols : option (list string)) (name : string)
    (filter : list (string * operand)) (limit : option Z) (params : list value)
    (st : state) : (exn + unit) * state :=
  match source name st with
  | None => fail OperationalError ("no such table: " ++ name) st
  | Some (tcols, rows) =>
      let out := match cols with Some cs => cs | None => tcols end in
      match unknown_column tcols (out ++ map fst filter)%list with
      | Some c => fail OperationalError ("no such column: " ++ c) st
      | None =>
          if negb (length params =? count_marks filter)%nat then
            fail ProgrammingError (bindings_error (count_marks filter) (length params)) st
          else
            let conds := resolve filter params in
            let hits := List.filter (satisfies tcols conds) rows in
            let shown := map (fun r => map (field tcols r) out) hits in
            let cut :=
              match limit with
              | Some k => if (k <? 0)%Z then shown else firstn (Z.to_nat k) shown
              | None => shown
              end in
            ok tt (after st (tables st) cut (Some out) (last_id st) (-1))
      end
  end.

(** A row with the columns [sets] given new values. *)
Definition assign (cols : list string) (sets : list (string * value)) (r : row) : row :=
  map (fun c => match lookup c sets with Some v => v | None => field cols r c end) cols.

(** The row id a changed row carries: the value of the row id column. *)
Definition rowid_after (t : table) (old : Z) (r : row) : option Z :=
  match t_rowid t with
  | None => Some old
  | Some k =>
      match field (t_cols t) r k with
      | VInt id => Some id
      | _ => None
      end
  end.

(** The rows of [t] after an UPDATE, or the reason it fails. *)
Fixpoint rewrite_rows (t : table) (sets conds : list (string * value))
    (rows : list (Z * row)) : string + (list (Z * row) * Z) :=
  match rows with
  | [] => inr ([], 0%Z)
  | (id, r) :: rest =>
      and_then (rewrite_rows t sets conds rest) (fun '(done, n) =>
      if satisfies (t_cols t) conds r then
        match rowid_after t id (assign (t_cols t) sets r) with
        | Some id' => inr ((id', assign (t_cols t) sets r) :: done, (n + 1)%Z)
        | None => inl "datatype mismatch"
        end
      else inr ((id, r) :: done, n))
  end.

Fixpoint distinct_ids (rows : list (Z * row)) : bool :=
  match rows with
  | [] => true
  | r :: rest => negb (has_rowid (fst r) rest) && distinct_ids rest
  end.

Definition run_update (name : string) (sets : list string)
    (filter : list (string * operand)) (params : list value) (st : state)
    : (exn + unit) * state :=
  match find_table name (tables st) with
  | None => fail OperationalError ("no such table: " ++ name) st
  | Some t =>
      match unknown_column (t_cols t) (sets ++ map fst filter)%list with
      | Some c => fail OperationalError ("no such column: " ++ c) st
      | None =>
          let uses := (length sets + count_marks filter)%nat in
          if negb (length params =? uses)%nat then
            fail ProgrammingError (bindings_error uses (length params)) st
          else
            let news := combine sets (firstn (length sets) params) in
            let conds := resolve filter (skipn (length sets) params) in
            match rewrite_rows t news conds (t_rows t) with
            | inl msg => fail IntegrityError msg st
            | inr (rows, n) =>
                if distinct_ids rows then
                  let t' := mkTable (t_name t) (t_cols t) (t_rowid t) (t_sql t)
                              (fold_right place [] rows) in
                  ok tt (after st (replace_table t' (tables st)) [] None (last_id st) n)
                else
                  fail IntegrityError
                    ("UNIQUE constraint failed: " ++ t_name t ++ "."
                     ++ match t_rowid t with Some k => k | None => "rowid" end) st
            end
      end
  end.

Definition run_delete (name : string) (filter : list (string * operand))
    (params : list value) (st : state) : (exn + unit) * state :=
  match find_table name (tables st) with
  | None => fail OperationalError ("no such table: " ++ name) st
  | Some t =>
      match unknown_column (t_cols t) (map fst filter) with
      | Some c => fail OperationalError ("no such column: " ++ c) st
      | None =>
          if negb (length params =? count_marks filter)%nat then
            fail ProgrammingError (bindings_error (count_marks filter) (length params)) st
          else
            let conds := resolve filter params in
            let keep := List.filter (fun r => negb (satisfies (t_cols t) conds (snd r))) (t_rows t) in
            let t' := mkTable (t_name t) (t_cols t) (t_rowid t) (t_sql t) keep in
            ok tt (after st (replace_table t' (tables st)) [] None (last_id st)
                     (Z.of_nat (length (t_rows t) - length keep)))
      end
  end.

Definition run (s : stmt) (sql : string) (params : list value) (st : state)
    : (exn + unit) * state :=
  match s with
  | Create flag name cols =>
      if negb (length params =? 0)%nat
      then fail ProgrammingError (bindings_error 0 (length params)) st
      else run_create flag name cols sql st
  | Insert name cols marks => run_insert name cols marks params st
  | Select cols name filter limit => run_select cols name filter limit params st
  | Update name sets filter => run_update name sets filter params st
  | Delete name filter => run_delete name filter params st
  end.

Definition closed_error : string := "Cannot operate on a closed database.".

(** *** The calls of the interface *)

Definition do_connect (path : string) (st : state) : (exn + unit) * state :=
  if existsb (String.eqb path) (unopenable st) then
    fail OperationalError "unable to open database file" st
  else
    ok tt (mkState (unopenable st) true false (tables st) [] None None (-1) (commits st)).

Definition do_cursor (st : state) : (exn + unit) * state :=
  if usable st then ok tt st else fail ProgrammingError closed_error st.

Definition do_commit (st : state) : (exn + unit) * state :=
  if usable st then
    ok tt (mkState (unopenable st) (opened st) (closed st) (tables st) (pending st)
             (described st) (last_id st) (affected st) (S (commits st)))
  else fail ProgrammingError closed_error st.

Definition do_close (st : state) : (exn + unit) * state :=
  ok tt (mkState (unopenable st) (opened st) true (tables st) [] None
           (last_id st) (affected st) (commits st)).

Definition do_execute (sql : string) (params : list value) (st : state)
    : (exn + unit) * state :=
  if usable st then
    match parse sql with
    | inl msg => fail OperationalError msg st
    | inr s => run s sql params st
    end
  else fail ProgrammingError closed_error st.

Definition is_dml (s : stmt) : bool :=
  match s with
  | Insert _ _ _ | Update _ _ _ | Delete _ _ => true
  | _ => false
  end.

(** One run per parameter list, up to the first that fails; what the
    earlier ones did stays. *)
Fixpoint run_many (s : stmt) (sql : string) (seq : list (list value))
    (id0 : option Z) (total : Z) (st : state) : (exn + unit) * state :=
  match seq with
  | [] => ok tt (after st (tables st) [] None id0 total)
  | params :: rest =>
      match run s sql params st with
      | (inr _, st') => run_many s sql rest id0 (total + affected st') st'
      | (inl x, st') => (inl x, st')
      end
  end.

Definition do_executemany (sql : string) (seq : list (list value)) (st : state)
    : (exn + unit) * state :=
  if usable st then
    match parse sql with
    | inl msg => fail OperationalError msg st
    | inr s =>
        if is_dml s then run_many s sql seq (last_id st) 0 st
        else fail ProgrammingError "executemany() can only execute DML statements." st
    end
  else fail ProgrammingError closed_error st.

Definition do_fetchall (st : state) : (exn + list row) * state :=
  if usable st then
    ok (pending st)
       (mkState (unopenable st) (opened st) (closed st) (tables st) []
          (described st) (last_id st) (affected st) (commits st))
  else fail ProgrammingError closed_error st.

#[global] Instance engine : Sqlite3 state := {
  sqlite3_connect := do_connect;
  connection_cursor := do_cursor;
  connection_commit := do_commit;
  connection_close := do_close;
  cursor_execute := do_execute;
  cursor_executemany := do_executemany;
  cursor_fetchall := do_fetchall;
  cursor_description := described;
  cursor_lastrowid := last_id;
  cursor_rowcount := affected
}.

(** A machine with no database yet, on which the paths [bad] cannot be
    opened. *)
Definition fresh (bad : list string) : state :=
  mkState bad false false [] [] None None (-1) 0.

End Mini.

(** ** A recording engine

    [Spy] accepts every call and keeps the list of the calls it received,
    with their arguments.  Running a method on it shows which statements
    and parameters the method hands to the library, and in which order. *)

Module Spy.

Inductive event : Type :=
| Connected (path : string)
| CursorOpened
| Executed (sql : string) (params : list value)
| ExecutedMany (sql : string) (seq : list (list value))
| Fetched
| Committed
| Closed.

Definition log : Type := list event.

Definition record_call {A} (ev : event) (a : A) : call log A :=
  fun l => (inr a, (l ++ [ev])%list).

#[global] Instance engine : Sqlite3 log := {
  sqlite3_connect path := record_call (Connected path) tt;
  connection_cursor := record_call CursorOpened tt;
  connection_commit := record_call Committed tt;
  connection_close := record_call Closed tt;
  cursor_execute sql params := record_call (Executed sql params) tt;
  cursor_executemany sql seq := record_call (ExecutedMany sql seq) tt;
  cursor_fetchall := record_call Fetched [];
  cursor_description := fun _ => Some [];
  cursor_lastrowid := fun _ => None;
  cursor_rowcount := fun _ => 0%Z
}.

End Spy.

(** A facade whose connection and cursor are present. *)
Definition connected (m : LiteDBManager) : Prop :=
  connection m = Some ConnectionObject /\ cursor m = Some CursorObject.

(** A facade whose [connect] failed: both attributes are [None]. *)
Definition disconnected (m : LiteDBManager) : Prop :=
  connection m = None /\ cursor m = None.

(** The calls the method [m] makes on the library, for a connected facade
    at [path]. *)
Definition calls_of {A} (m : M Spy.log A) (path : string) : Spy.log :=
  sqlite (snd (m (mkWorld (mkLiteDBManager path (Some ConnectionObject) (Some CursorObject))
                          [] []))).

(** The names [get_all_tables] keeps: all but SQLite's own
    [sqlite_sequence]. *)
Definition user_tables (names : list string) : list string :=
  filter (fun n => negb (String.eqb n "sqlite_sequence")) names.

(** How often the name occurs in a list of values. *)
Definition count_name (name : string) (vs : list value) : nat :=
  length (filter (fun v => negb (differs_from_str v name)) vs).

(** ** The module's own example

    The table and the records of the example at the end of the module, on
    [Mini]: [example_world] is the state after the table was created and
    the three records were inserted. *)

Definition users_columns : dict string :=
  [("id", "INTEGER PRIMARY KEY AUTOINCREMENT"); ("name", "TEXT NOT NULL");
   ("age", "INTEGER"); ("email", "TEXT UNIQUE")].

Definition zhang_san : record :=
  [("name", VStr "张三"); ("age", VInt 28); ("email", VStr "zhangsan@example.com")].

Definition li_si : record :=
  [("name", VStr "李四"); ("age", VInt 30); ("email", VStr "lisi@example.com")].

Definition wang_wu : record :=
  [("name", VStr "王五"); ("age", VInt 25); ("email", VStr "wangwu@example.com")].

Definition example_setup : M Mini.state bool :=
  (create_table "users" users_columns ;;
   insert "users" zhang_san ;;
   bulk_insert "users" [li_si; wang_wu])%py.

Definition example_world : world Mini.state :=
  snd (example_setup (snd (new "example.db" (Mini.fresh [])))).

(** A facade built on a path that cannot be opened. *)
Definition failed_world : world Mini.state := snd (new "/" (Mini.fresh ["/"])).

(** A facade freshly connected to an empty database. *)
Definition fresh_world : world Mini.state := snd (new "example.db" (Mini.fresh [])).

(** Two more records: the second lists its keys in another order than the
    first, and [as_bound] is how [bulk_insert] reads it. *)
Definition zhao_liu : record :=
  [("name", VStr "赵六"); ("age", VInt 41); ("email", VStr "zhaoliu@example.com")].

Definition sun_qi : record :=
  [("email", VStr "sunqi@example.com"); ("age", VInt 33); ("name", VStr "孙七")].

Definition as_bound : record :=
  [("name", VStr "sunqi@example.com"); ("age", VInt 33); ("email", VStr "孙七")].

(** The rows of a table of [Mini], without their row ids. *)
Definition rows_of (name : string) (w : world Mini.state) : list row :=
  match Mini.find_table name (Mini.tables (sqlite w)) with
  | Some t => map snd (Mini.t_rows t)
  | None => []
  end.

(** The catalog of [Mini], and the states and arguments for which it is
    shown to meet the catalog contract: a usable connection, no two tables
    of one name, no table whose name is [users] in another case, and the
    table of the example. *)
Definition mini_names (e : Mini.state) : list string :=
  map Mini.t_name (Mini.tables e).

Definition mini_ready (e : Mini.state) : Prop :=
  Mini.usable e = true
  /\ NoDup (mini_names e)
  /\ forall n, In n (mini_names e) -> Mini.same_name "users" n = true -> n = "users".

Definition mini_valid (name : string) (cols : dict string) : Prop :=
  name = "users" /\ cols = users_columns.

(** ** Further notions

    What the properties beyond the statements need to be stated. *)

(** [d.get(k)]: the value at the key, if the dict has it. *)
Definition dict_get {V} (k : string) (d : dict V) : option V :=
  option_map snd (find (fun kv => String.eqb k (fst kv)) d).

(** The last value paired with the key in a list of pairs. *)
Definition last_value {V} (k : string) (pairs : list (string * V)) : option V :=
  dict_get k (rev pairs).

(** The method changes no attribute of the facade and only adds lines to
    what has been printed. *)
Definition keeps_facade {E A} (m : M E A) : Prop :=
  forall w,
    self (snd (m w)) = self w
    /\ exists lines, stdout (snd (m w)) = (stdout w ++ lines)%list.

(** A text without a question mark. *)
Definition no_mark (s : string) : Prop := count_char "?" s = 0.

(** A record that is two values short of the columns of the example. *)
Definition zhou_ba : record := [("name", VStr "周八")].

(** The example after [disconnect]. *)
Definition closed_world : world Mini.state := snd (disconnect example_world).

(** * Properties *)

(** ** Text *)

Lemma append_assoc (a b c : string) : (a ++ b) ++ c = a ++ (b ++ c).
Proof.
  induction a as [|x a IH]; simpl.
  - reflexivity.
  - now rewrite IH.
Qed.

Lemma append_empty_r (a : string) : a ++ "" = a.
Proof.
  induction a as [|x a IH]; simpl; [reflexivity | now rewrite IH].
Qed.

Lemma map_const_repeat {A B} (b : B) (l : list A) :
  map (fun _ => b) l = repeat b (length l).
Proof.
  induction l as [|x l IH]; simpl; [reflexivity | now rewrite IH].
Qed.

Lemma keys_length {V} (d : dict V) : length (keys d) = length d.
Proof. apply length_map. Qed.

Lemma values_length {V} (d : dict V) : length (values d) = length d.
Proof. apply length_map. Qed.

Lemma keys_values_items {V} (d : dict V) : combine (keys d) (values d) = d.
Proof.
  induction d as [|[k v] d IH]; simpl; [reflexivity | now rewrite IH].
Qed.

Lemma count_char_append (c : ascii) (a b : string) :
  count_char c (a ++ b) = count_char c a + count_char c b.
Proof.
  induction a as [|x a IH]; simpl; [reflexivity | rewrite IH; lia].
Qed.

Lemma join_cons2 (sep x y : string) (l : list string) :
  join sep (x :: y :: l) = x ++ sep ++ join sep (y :: l).
Proof. reflexivity. Qed.

Lemma count_char_marks (n : nat) :
  count_char "?" (join ", " (repeat "?" n)) = n.
Proof.
  induction n as [|n IH]; [reflexivity|].
  destruct n as [|n]; [reflexivity|].
  change (repeat "?" (S (S n))) with ("?" :: "?" :: repeat "?" n).
  rewrite join_cons2, !count_char_append.
  change ("?" :: repeat "?" n) with (repeat "?" (S n)).
  rewrite IH. reflexivity.
Qed.

Lemma placeholders_repeat {V} (data : dict V) :
  placeholders_of data = join ", " (repeat "?" (length (keys data))).
Proof.
  unfold placeholders_of. now rewrite map_const_repeat, keys_length.
Qed.

Lemma insert_sql_text {V} (table_name : string) (data : dict V) :
  insert_sql table_name data
  = "INSERT INTO " ++ table_name ++ " (" ++ join ", " (keys data)
    ++ ") VALUES (" ++ join ", " (repeat "?" (length (keys data))) ++ ")".
Proof.
  unfold insert_sql. now rewrite placeholders_repeat.
Qed.

(** *** [strip], [upper] and [startswith] *)

Lemma lstrip_split (s : string) :
  exists blanks, s = blanks ++ lstrip s /\ all_chars isspace blanks = true.
Proof.
  induction s as [|c s (b & Hs & Hb)]; simpl.
  - now exists "".
  - destruct (isspace c) eqn:Hc.
    + exists (String c b). split.
      * simpl. now rewrite <- Hs.
      * unfold all_chars in *. simpl. now rewrite Hc.
    + now exists "".
Qed.

Lemma lstrip_skips (blanks : string) (c : ascii) (r : string) :
  all_chars isspace blanks = true -> isspace c = false ->
  lstrip (blanks ++ String c r) = String c r.
Proof.
  unfold all_chars. intros Hb Hc.
  induction blanks as [|b blanks IH]; simpl in *.
  - now rewrite Hc.
  - apply andb_prop in Hb as [-> Hb]. auto.
Qed.

Lemma rstrip_split (s : string) : exists trailing, s = rstrip s ++ trailing.
Proof.
  induction s as [|c s (t & Ht)]; simpl.
  - now exists "".
  - destruct (rstrip s) as [|d r] eqn:Hr.
    + destruct (isspace c).
      * now exists (String c s).
      * exists t. simpl. now rewrite Ht at 1.
    + exists t. simpl. now rewrite Ht at 1.
Qed.

Lemma rstrip_keeps_head (c : ascii) (r : string) :
  isspace c = false -> rstrip (String c r) = String c (rstrip r).
Proof.
  intros Hc. simpl. destruct (rstrip r); [now rewrite Hc | reflexivity].
Qed.

Lemma rstrip_keeps_word (word rest : string) :
  all_chars (fun c => negb (isspace c)) word = true ->
  rstrip (word ++ rest) = word ++ rstrip rest.
Proof.
  unfold all_chars. induction word as [|c word IH]; intros H; [reflexivity|].
  simpl in H. apply andb_prop in H as [Hc H].
  apply negb_true_iff in Hc.
  change (String c word ++ rest) with (String c (word ++ rest)).
  rewrite rstrip_keeps_head by assumption.
  now rewrite IH.
Qed.

Lemma upper_append (a b : string) : upper (a ++ b) = upper a ++ upper b.
Proof.
  induction a as [|c a IH]; simpl; [reflexivity | now rewrite IH].
Qed.

Lemma prefix_append (a b : string) : String.prefix a (a ++ b) = true.
Proof.
  induction a as [|c a IH]; simpl.
  - now destruct b.
  - destruct (ascii_dec c c) as [_|n]; [exact IH | now elim n].
Qed.

Lemma isspace_upper (c : ascii) : isspace c = true -> upper_char c = c.
Proof.
  unfold isspace, upper_char.
  generalize (nat_of_ascii c). intros n H.
  destruct (Nat.leb_spec 97 n); [|reflexivity].
  destruct (Nat.leb_spec 9 n), (Nat.leb_spec n 13), (Nat.leb_spec 28 n),
    (Nat.leb_spec n 32); simpl in H; try discriminate; lia.
Qed.

Lemma letter_not_space (c d : ascii) :
  upper_char c = d -> isspace d = false -> isspace c = false.
Proof.
  intros Hu Hd. destruct (isspace c) eqn:Hc; [|reflexivity].
  rewrite (isspace_upper c Hc) in Hu. congruence.
Qed.

Lemma select_word_has_no_space (word : string) :
  upper word = "SELECT" ->
  all_chars (fun c => negb (isspace c)) word = true
  /\ exists c r, word = String c r /\ isspace c = false.
Proof.
  intros H.
  destruct word as [|c1 [|c2 [|c3 [|c4 [|c5 [|c6 [|c7 r]]]]]]]; try discriminate.
  simpl in H. injection H as H1 H2 H3 H4 H5 H6.
  assert (N1 := letter_not_space _ _ H1 eq_refl).
  assert (N2 := letter_not_space _ _ H2 eq_refl).
  assert (N3 := letter_not_space _ _ H3 eq_refl).
  assert (N4 := letter_not_space _ _ H4 eq_refl).
  assert (N5 := letter_not_space _ _ H5 eq_refl).
  assert (N6 := letter_not_space _ _ H6 eq_refl).
  split.
  - unfold all_chars. simpl. now rewrite N1, N2, N3, N4, N5, N6.
  - now exists c1, (String c2 (String c3 (String c4 (String c5 (String c6 ""))))).
Qed.

Lemma prefix_select (x : string) :
  String.prefix "SELECT" x = true -> exists rest, x = "SELECT" ++ rest.
Proof.
  intros H.
  destruct x as [|c1 [|c2 [|c3 [|c4 [|c5 [|c6 r]]]]]]; simpl in H;
    repeat match type of H with
           | (if ?d then _ else _) = true => destruct d as [<-|]; [|discriminate]
           end;
    try discriminate.
  now exists r.
Qed.

Lemma upper_split (x : string) (n : nat) :
  exists word rest,
    x = word ++ rest /\ upper word = substring 0 n (upper x).
Proof.
  revert x. induction n as [|n IH]; intros x.
  - exists "", x. split; [reflexivity|]. now destruct (upper x).
  - destruct x as [|c x].
    + now exists "", "".
    + destruct (IH x) as (word & rest & Hx & Hw).
      exists (String c word), rest. split.
      * simpl. now rewrite <- Hx.
      * simpl. now rewrite Hw.
Qed.

(** The test of the code is the test of the specification. *)
Lemma is_query_spec (sql : string) : is_query sql = true <-> begins_with_select sql.
Proof.
  unfold is_query, startswith, strip, begins_with_select. split.
  - intros H.
    destruct (lstrip_split sql) as (blanks & Hs & Hb).
    destruct (rstrip_split (lstrip sql)) as (trailing & Ht).
    destruct (upper_split (rstrip (lstrip sql)) 6) as (word & rest & Hx & Hw).
    apply prefix_select in H as (tail & Hu).
    rewrite Hu in Hw. simpl in Hw.
    exists blanks, word, (rest ++ trailing). repeat apply conj.
    + rewrite <- (append_assoc word rest trailing), <- Hx, <- Ht. exact Hs.
    + exact Hb.
    + rewrite Hw. now destruct tail.
  - intros (blanks & word & rest & -> & Hb & Hw).
    destruct (select_word_has_no_space word Hw) as (Hn & c & r & -> & Hc).
    change (String c r ++ rest) with (String c (r ++ rest)).
    rewrite lstrip_skips by assumption.
    change (String c (r ++ rest)) with (String c r ++ rest).
    rewrite rstrip_keeps_word by assumption.
    rewrite upper_append, Hw. apply prefix_append.
Qed.

(** ** Methods on any engine *)

Section OnAnyEngine.

Context {E : Type} {engine : Sqlite3 E}.

(** C7: [bulk_insert] with an empty list returns true at once: the world,
    and with it every table of the database, is left as it was, and the
    library receives no call. *)
Theorem bulk_insert_empty_is_noop (table_name path : string) (w : world E) :
  bulk_insert table_name [] w = (Returned true, w)
  /\ calls_of (bulk_insert table_name []) path = [].
Proof. split; reflexivity. Qed.


(** C3, the case the code misses: a limit of 0 is false in [if limit:], so
    the statement gets no LIMIT clause and the call is the one with no
    limit at all. *)
Theorem select_limit_zero_is_no_limit (table_name columns : string)
    (conditions : option record) (w : world E) :
  select_statement table_name conditions columns (Some 0%Z)
  = select_statement table_name conditions columns None
  /\ select table_name conditions columns (Some 0%Z) w
     = select table_name conditions columns None w.
Proof. split; reflexivity. Qed.

(** A limit other than 0 ends the statement with [LIMIT k]. *)
Lemma select_limit_clause (table_name columns : string) (conditions : option record)
    (k : Z) :
  k <> 0%Z ->
  fst (select_statement table_name conditions columns (Some k))
  = fst (select_statement table_name conditions columns None) ++ " LIMIT " ++ str_int k.
Proof.
  intros Hk. unfold select_statement, truthy_int.
  destruct (Z.eqb_spec k 0) as [->|_]; [contradiction|].
  destruct conditions as [[|c cs]|]; reflexivity.
Qed.

(** *** What a method does without a cursor, and with one *)

Lemma self_cursor_absent (attr : string) (w : world E) :
  cursor (self w) = None -> self_cursor attr w = (Raised (no_attribute attr), w).
Proof. intros H. unfold self_cursor. now rewrite H. Qed.

Lemma self_cursor_present (attr : string) (w : world E) :
  connected (self w) -> self_cursor attr w = (Returned CursorObject, w).
Proof. intros [_ H]. unfold self_cursor. now rewrite H. Qed.

Lemma self_connection_present (attr : string) (w : world E) :
  connected (self w) -> self_connection attr w = (Returned ConnectionObject, w).
Proof. intros [H _]. unfold self_connection. now rewrite H. Qed.

Lemma execute_absent (sql : string) (params : list value) (w : world E) :
  cursor (self w) = None -> execute sql params w = (Raised (no_attribute "execute"), w).
Proof.
  intros H. unfold execute, bind. now rewrite self_cursor_absent.
Qed.

Lemma executemany_absent (sql : string) (seq : list (list value)) (w : world E) :
  cursor (self w) = None ->
  executemany sql seq w = (Raised (no_attribute "executemany"), w).
Proof.
  intros H. unfold executemany, bind. now rewrite self_cursor_absent.
Qed.

Lemma execute_present (sql : string) (params : list value) (w : world E) :
  connected (self w) -> execute sql params w = lift (cursor_execute sql params) w.
Proof.
  intros H. unfold execute, bind. now rewrite self_cursor_present.
Qed.

Lemma executemany_present (sql : string) (seq : list (list value)) (w : world E) :
  connected (self w) -> executemany sql seq w = lift (cursor_executemany sql seq) w.
Proof.
  intros H. unfold executemany, bind. now rewrite self_cursor_present.
Qed.

Lemma commit_present (w : world E) :
  connected (self w) -> commit w = lift connection_commit w.
Proof.
  intros H. unfold commit, bind. now rewrite self_connection_present.
Qed.

Lemma fetchall_present (w : world E) :
  connected (self w) -> fetchall w = lift cursor_fetchall w.
Proof.
  intros H. unfold fetchall, bind. now rewrite self_cursor_present.
Qed.

(** A handler that returns turns every [sqlite3.Error] of the body into a
    return. *)
Lemma try_except_catches {A} (body : M E A) (handler : string -> M E A) (w : world E)
    (k : sqlite_kind) (msg : string) :
  (forall m w', exists a w'', handler m w' = (Returned a, w'')) ->
  fst (try_except body handler w) <> Raised (Sqlite3Error k msg).
Proof.
  intros Hh. unfold try_except.
  destruct (body w) as [[a|x] w'] eqn:Hb; simpl; [discriminate|].
  destruct x as [k' m| | | | |]; simpl; try discriminate.
  destruct (Hh m w') as (a & w'' & ->). simpl. discriminate.
Qed.

Lemma print_then_ret {A} (line : string) (a : A) (m : string) (w : world E) :
  exists b w', (print (line ++ m) ;; ret a)%py w = (Returned b, w').
Proof. now eexists _, _. Qed.

(** No method lets an instance of [sqlite3.Error] reach its caller. *)
Lemma engine_errors_are_caught (w : world E) (k : sqlite_kind) (msg : string) :
  (forall t cols, fst (create_table t cols w) <> Raised (Sqlite3Error k msg))
  /\ (forall t data, fst (insert t data w) <> Raised (Sqlite3Error k msg))
  /\ (forall t l, fst (bulk_insert t l w) <> Raised (Sqlite3Error k msg))
  /\ (forall t c cols l, fst (select t c cols l w) <> Raised (Sqlite3Error k msg))
  /\ (forall t data c, fst (update t data c w) <> Raised (Sqlite3Error k msg))
  /\ (forall t c, fst (delete t c w) <> Raised (Sqlite3Error k msg))
  /\ fst (get_all_tables w) <> Raised (Sqlite3Error k msg)
  /\ (forall sql p, fst (execute_sql sql p w) <> Raised (Sqlite3Error k msg)).
Proof.
  repeat apply conj; intros;
    try (apply try_except_catches; intros; apply print_then_ret).
  destruct l as [|first rest]; [discriminate|].
  apply try_except_catches; intros; apply print_then_ret.
Qed.

(** C1, where the code departs from it: when [sqlite3.connect] fails, the
    constructor returns with [connection] and [cursor] left at [None], and
    from then on every method raises [AttributeError] into its caller
    ([bulk_insert] for a list that is not empty): the handlers catch
    [sqlite3.Error] only. *)
Theorem absent_connection_raises (path : string) (e e' : E) (k : sqlite_kind)
    (msg : string) :
  sqlite3_connect path e = (inl (Sqlite3Error k msg), e') ->
  exists w,
    new path e = (Returned tt, w)
    /\ disconnected (self w)
    /\ (forall t cols, create_table t cols w = (Raised (no_attribute "execute"), w))
    /\ (forall t data, insert t data w = (Raised (no_attribute "execute"), w))
    /\ (forall t first rest,
          bulk_insert t (first :: rest) w = (Raised (no_attribute "executemany"), w))
    /\ (forall t c cols l, select t c cols l w = (Raised (no_attribute "execute"), w))
    /\ (forall t data c, update t data c w = (Raised (no_attribute "execute"), w))
    /\ (forall t c, delete t c w = (Raised (no_attribute "execute"), w))
    /\ get_all_tables w = (Raised (no_attribute "execute"), w)
    /\ (forall sql p, execute_sql sql p w = (Raised (no_attribute "execute"), w)).
Proof.
  intros Hc.
  exists (mkWorld (mkLiteDBManager path None None) e' ["连接数据库失败: " ++ msg]).
  split.
  { unfold new, __init__, connect, try_except, bind, get_db_path, lift. simpl.
    rewrite Hc. reflexivity. }
  split; [now split|].
  repeat apply conj; intros.
  - unfold create_table, try_except, bind. now rewrite execute_absent.
  - unfold insert, try_except, bind. now rewrite execute_absent.
  - unfold bulk_insert, try_except, bind. now rewrite executemany_absent.
  - unfold select, try_except.
    destruct (select_statement t c cols l) as [sql params].
    unfold bind. now rewrite execute_absent.
  - unfold update, try_except.
    destruct (update_statement t data c) as [sql params].
    unfold bind. now rewrite execute_absent.
  - unfold delete, try_except.
    destruct (delete_statement t c) as [sql params].
    unfold bind. now rewrite execute_absent.
  - unfold get_all_tables, try_except, bind. now rewrite execute_absent.
  - unfold execute_sql, try_except, bind. now rewrite execute_absent.
Qed.

(** C10: [disconnect] on a facade without a connection does nothing and
    returns; with a connection it closes it (the one call the library
    receives) and reports so; the stored path is the same afterwards in
    every case. *)
Theorem disconnect_closes_if_connected (w : world E) (path : string) :
  (connection (self w) = None -> disconnect w = (Returned tt, w))
  /\ (forall c, connection (self w) = Some c ->
        disconnect w
        = match connection_close (sqlite w) with
          | (inr _, e') =>
              (Returned tt, mkWorld (self w) e' (stdout w ++ ["数据库连接已关闭"])%list)
          | (inl x, e') => (Raised x, mkWorld (self w) e' (stdout w))
          end)
  /\ db_path (self (snd (disconnect w))) = db_path (self w)
  /\ calls_of disconnect path = [Spy.Closed].
Proof.
  repeat apply conj.
  - intros H. unfold disconnect, bind, get_connection. now rewrite H.
  - intros c H. unfold disconnect, bind, get_connection, lift. rewrite H.
    now destruct (connection_close (sqlite w)) as [[x|[]] e'].
  - unfold disconnect, bind, get_connection, lift.
    destruct (connection (self w)); [|reflexivity].
    now destruct (connection_close (sqlite w)) as [[x|[]] e'].
  - reflexivity.
Qed.

(** C6: [insert] hands the library one statement and one parameter list,
    then commits.  The statement names the record's keys in iteration
    order and has one [?] per key; the parameters are the record's values
    in the same order, so the i-th column name and the i-th bound value
    come from the i-th item of the record. *)
Theorem insert_positional_correspondence (table_name path : string) (data : record) :
  calls_of (insert table_name data) path
  = [Spy.Executed (insert_sql table_name data) (values data); Spy.Committed]
  /\ insert_sql table_name data
     = "INSERT INTO " ++ table_name ++ " (" ++ join ", " (keys data)
       ++ ") VALUES (" ++ placeholders_of data ++ ")"
  /\ placeholders_of data = join ", " (repeat "?" (length (keys data)))
  /\ count_char "?" (placeholders_of data) = length (keys data)
  /\ length (values data) = length (keys data)
  /\ combine (keys data) (values data) = data
  /\ (forall i, nth_error (keys data) i = option_map fst (nth_error data i)
                /\ nth_error (values data) i = option_map snd (nth_error data i)).
Proof.
  repeat apply conj.
  - reflexivity.
  - reflexivity.
  - apply placeholders_repeat.
  - rewrite placeholders_repeat. apply count_char_marks.
  - now rewrite keys_length, values_length.
  - apply keys_values_items.
  - intros i. split; apply nth_error_map.
Qed.

(** The same call whenever the first record's keys and every record's
    values are the same. *)
Lemma bulk_insert_ignores_later_keys (table_name : string)
    (first first' : record) (rest rest' : list record) (w : world E) :
  keys first' = keys first ->
  map values (first' :: rest') = map values (first :: rest) ->
  bulk_insert table_name (first' :: rest') w = bulk_insert table_name (first :: rest) w.
Proof.
  intros Hk Hv.
  assert (Hs : insert_sql table_name first' = insert_sql table_name first).
  { unfold insert_sql, placeholders_of.
    rewrite !map_const_repeat, <- !(keys_length first'), <- !(keys_length first), Hk.
    reflexivity. }
  assert (Hl : length (first' :: rest') = length (first :: rest)).
  { pose proof (f_equal (@length _) Hv) as Hn. now rewrite !length_map in Hn. }
  unfold bulk_insert. rewrite Hs, Hl.
  assert (Hv' : map (fun data : dict value => values data) (first' :: rest')
                 = map (fun data : dict value => values data) (first :: rest))
    by exact Hv.
  now rewrite Hv'.
Qed.

(** C4: for a list that is not empty, [bulk_insert] hands the library one
    statement built from the first record's keys alone (its column list and
    one [?] per key), with every record's values in that record's own
    order, then commits.  The keys of the later records are never looked
    at: the call is the same for any records with these values. *)
Theorem bulk_insert_uses_first_record (table_name path : string) (first : record)
    (rest : list record) (w : world E) :
  calls_of (bulk_insert table_name (first :: rest)) path
  = [Spy.ExecutedMany (insert_sql table_name first) (map values (first :: rest));
     Spy.Committed]
  /\ insert_sql table_name first
     = "INSERT INTO " ++ table_name ++ " (" ++ join ", " (keys first)
       ++ ") VALUES (" ++ join ", " (repeat "?" (length (keys first))) ++ ")"
  /\ (forall others : list record,
        map values others = map values rest ->
        bulk_insert table_name (first :: others) w
        = bulk_insert table_name (first :: rest) w).
Proof.
  repeat apply conj.
  - reflexivity.
  - apply insert_sql_text.
  - intros others H. apply bulk_insert_ignores_later_keys; [reflexivity|].
    simpl. now rewrite H.
Qed.

(** C2, as the code has it: with an empty conditions dict, [update] and
    [delete] build a statement that stops after the word WHERE and hand it
    to the library as it is.  When the library rejects that text with an
    [sqlite3.Error], as SQLite does, the method reports the failure and
    returns false; the library is left as the failed call left it, and no
    commit follows. *)
Theorem empty_conditions_stop_after_where (table_name : string) (data : record)
    (w : world E) (k k' : sqlite_kind) (msg msg' : string) (e1 e2 : E) :
  connected (self w) ->
  cursor_execute ("UPDATE " ++ table_name ++ " SET " ++ set_clause_of data ++ " WHERE ")
    (values data) (sqlite w) = (inl (Sqlite3Error k msg), e1) ->
  cursor_execute ("DELETE FROM " ++ table_name ++ " WHERE ") [] (sqlite w)
    = (inl (Sqlite3Error k' msg'), e2) ->
  update_statement table_name data []
  = ("UPDATE " ++ table_name ++ " SET " ++ set_clause_of data ++ " WHERE ", values data)
  /\ delete_statement table_name [] = ("DELETE FROM " ++ table_name ++ " WHERE ", [])
  /\ update table_name data [] w
     = (Returned false,
        mkWorld (self w) e1 (stdout w ++ [("更新数据失败: " ++ msg)%string])%list)
  /\ delete table_name [] w
     = (Returned false,
        mkWorld (self w) e2 (stdout w ++ [("删除数据失败: " ++ msg')%string])%list).
Proof.
  intros Hw Hu Hd.
  assert (Su : update_statement table_name data []
               = ("UPDATE " ++ table_name ++ " SET " ++ set_clause_of data ++ " WHERE ",
                  values data)).
  { unfold update_statement. simpl. now rewrite app_nil_r. }
  repeat apply conj.
  - exact Su.
  - reflexivity.
  - unfold update. rewrite Su. unfold try_except, bind.
    rewrite execute_present by assumption. unfold lift. now rewrite Hu.
  - assert (Sd : delete_statement table_name []
                 = ("DELETE FROM " ++ table_name ++ " WHERE ", [])) by reflexivity.
    unfold delete. rewrite Sd. unfold try_except, bind.
    rewrite execute_present by assumption. unfold lift. now rewrite Hd.
Qed.

(** C5, as the code has it.  On a connected facade [execute_sql] first
    executes the statement; then it either fetches or commits, by the test
    on the text alone, which is the specification's test.  When the
    execution succeeds, a statement that passes the test has its rows
    fetched and returned as records keyed by the cursor's column names, and
    any other statement is committed and an empty list returned.  When the
    execution raises an [sqlite3.Error], an empty list is returned and
    nothing is fetched or committed. *)
Theorem execute_sql_dispatch (sql path : string) (params : option (list value))
    (w : world E) :
  connected (self w) ->
  let p := match params with None => [] | Some p => p end in
  (is_query sql = true <-> begins_with_select sql)
  /\ calls_of (execute_sql sql params) path
     = [Spy.Executed sql p; if is_query sql then Spy.Fetched else Spy.Committed]
  /\ (forall e1 rows e2 names,
        cursor_execute sql p (sqlite w) = (inr tt, e1) ->
        is_query sql = true ->
        cursor_fetchall e1 = (inr rows, e2) ->
        cursor_description e2 = Some names ->
        execute_sql sql params w
        = (Returned (as_records names rows), mkWorld (self w) e2 (stdout w)))
  /\ (forall e1 e2,
        cursor_execute sql p (sqlite w) = (inr tt, e1) ->
        is_query sql = false ->
        connection_commit e1 = (inr tt, e2) ->
        execute_sql sql params w
        = (Returned [], mkWorld (self w) e2 (stdout w ++ ["SQL语句执行成功"])%list))
  /\ (forall k msg e1,
        cursor_execute sql p (sqlite w) = (inl (Sqlite3Error k msg), e1) ->
        execute_sql sql params w
        = (Returned [], mkWorld (self w) e1 (stdout w ++ [("执行SQL失败: " ++ msg)%string])%list)).
Proof.
  intros Hw p. split; [apply is_query_spec|]. repeat apply conj.
  - unfold calls_of, execute_sql, try_except, bind. simpl.
    now destruct (is_query sql).
  - intros e1 rows e2 names He Hq Hf Hd.
    unfold execute_sql, try_except, bind.
    rewrite execute_present by assumption. unfold lift at 1. fold p. rewrite He, Hq.
    rewrite fetchall_present by assumption. unfold lift. simpl. rewrite Hf.
    unfold column_names, bind.
    rewrite self_cursor_present by assumption.
    unfold read. simpl. now rewrite Hd.
  - intros e1 e2 He Hq Hc.
    unfold execute_sql, try_except, bind.
    rewrite execute_present by assumption. unfold lift at 1. fold p. rewrite He, Hq.
    rewrite commit_present by assumption. unfold lift. simpl. now rewrite Hc.
  - intros k msg e1 He.
    unfold execute_sql, try_except, bind.
    rewrite execute_present by assumption. unfold lift. fold p. now rewrite He.
Qed.

End OnAnyEngine.

(** ** The catalog

    What [create_table] and [get_all_tables] do together depends on what
    the engine does with CREATE TABLE IF NOT EXISTS and with the catalog
    query.  The section states SQLite's behaviour on the two as a contract,
    over an abstract view [table_names] of the catalog, and derives the
    facade's behaviour from it for every engine that meets the contract. *)

Section Catalog.

Context {E : Type} {engine : Sqlite3 E}.

(** The names of the tables in [sqlite_master], in catalog order. *)
Variable table_names : E -> list string.

(** The states in which the connection and its cursor can be used. *)
Variable ready : E -> Prop.

(** The table names and column descriptors the engine accepts. *)
Variable valid : string -> dict string -> Prop.

(** SQLite reserves the names that begin with [sqlite_]. *)
Hypothesis valid_not_internal :
  forall name cols, valid name cols -> name <> "sqlite_sequence".

Hypothesis catalog_has_no_duplicates :
  forall e, ready e -> NoDup (table_names e).

(** CREATE TABLE IF NOT EXISTS succeeds; it adds the table when there is
    none of that name and changes no user table otherwise. *)
Hypothesis create_if_not_exists :
  forall e name cols, ready e -> valid name cols ->
  exists e',
    cursor_execute (create_table_sql name cols) [] e = (inr tt, e')
    /\ ready e'
    /\ user_tables (table_names e')
       = if existsb (String.eqb name) (table_names e)
         then user_tables (table_names e)
         else (user_tables (table_names e) ++ [name])%list.

Hypothesis commit_keeps_catalog :
  forall e, ready e ->
  exists e', connection_commit e = (inr tt, e') /\ ready e'
             /\ table_names e' = table_names e.

(** The catalog query yields one row per table, holding its name. *)
Hypothesis catalog_query_lists_tables :
  forall e, ready e ->
  exists e1 e2,
    cursor_execute catalog_sql [] e = (inr tt, e1)
    /\ cursor_fetchall e1 = (inr (map (fun n => [VStr n]) (table_names e)), e2)
    /\ ready e2
    /\ table_names e2 = table_names e.

Lemma first_fields_names (names : list string) :
  first_fields (map (fun n => [VStr n]) names) = inr (map VStr (user_tables names)).
Proof.
  induction names as [|n names IH]; simpl; [reflexivity|].
  rewrite IH. now destruct (String.eqb n "sqlite_sequence").
Qed.

Lemma count_name_strs (name : string) (names : list string) :
  count_name name (map VStr names) = count_occ string_dec names name.
Proof.
  unfold count_name. induction names as [|n names IH]; simpl; [reflexivity|].
  rewrite negb_involutive.
  destruct (String.eqb_spec n name) as [Hn|Hn], (string_dec n name) as [Heq|Hne];
    simpl; congruence.
Qed.

Lemma user_tables_nodup (names : list string) :
  NoDup names -> NoDup (user_tables names).
Proof. apply NoDup_filter. Qed.

Lemma user_tables_in (name : string) (names : list string) :
  name <> "sqlite_sequence" -> (In name (user_tables names) <-> In name names).
Proof.
  intros Hn. unfold user_tables. rewrite filter_In. split; [tauto|].
  intros H. split; [exact H|].
  now destruct (String.eqb_spec name "sqlite_sequence").
Qed.

Lemma existsb_eqb_in (name : string) (names : list string) :
  existsb (String.eqb name) names = true <-> In name names.
Proof.
  rewrite existsb_exists. split.
  - intros (x & Hx & Heq). apply String.eqb_eq in Heq. now subst.
  - intros H. exists name. split; [exact H | apply String.eqb_refl].
Qed.

(** [create_table] on a valid name returns true and leaves a catalog in
    which the name occurs. *)
Lemma create_table_runs (w : world E) (name : string) (cols : dict string) :
  connected (self w) -> ready (sqlite w) -> valid name cols ->
  exists w',
    create_table name cols w = (Returned true, w')
    /\ connected (self w') /\ ready (sqlite w')
    /\ user_tables (table_names (sqlite w'))
       = if existsb (String.eqb name) (table_names (sqlite w))
         then user_tables (table_names (sqlite w))
         else (user_tables (table_names (sqlite w)) ++ [name])%list.
Proof.
  intros Hw Hr Hv.
  destruct (create_if_not_exists _ _ _ Hr Hv) as (e1 & He1 & Hr1 & Hn1).
  destruct (commit_keeps_catalog _ Hr1) as (e2 & He2 & Hr2 & Hn2).
  eexists. split.
  - unfold create_table, try_except, bind.
    rewrite execute_present by assumption. unfold lift at 1. rewrite He1.
    rewrite commit_present by assumption. unfold lift. simpl. rewrite He2.
    reflexivity.
  - simpl. rewrite Hn2. auto.
Qed.

(** [get_all_tables] returns the user tables of the catalog. *)
Lemma get_all_tables_runs (w : world E) :
  connected (self w) -> ready (sqlite w) ->
  exists w',
    get_all_tables w = (Returned (map VStr (user_tables (table_names (sqlite w)))), w')
    /\ connected (self w') /\ ready (sqlite w')
    /\ table_names (sqlite w') = table_names (sqlite w).
Proof.
  intros Hw Hr.
  destruct (catalog_query_lists_tables _ Hr) as (e1 & e2 & He1 & He2 & Hr2 & Hn2).
  eexists. split.
  - unfold get_all_tables, try_except, bind.
    rewrite execute_present by assumption. unfold lift at 1. rewrite He1.
    rewrite fetchall_present by assumption. unfold lift. simpl. rewrite He2.
    rewrite first_fields_names. reflexivity.
  - simpl. auto.
Qed.


End Catalog.

(** ** [Mini] meets the catalog contract *)

Lemma find_table_some (n : string) (ts : list Mini.table) (t : Mini.table) :
  Mini.find_table n ts = Some t ->
  In (Mini.t_name t) (map Mini.t_name ts) /\ Mini.same_name n (Mini.t_name t) = true.
Proof.
  induction ts as [|u ts IH]; simpl; [discriminate|].
  destruct (Mini.same_name n (Mini.t_name u)) eqn:Hu.
  - intros [= <-]. auto.
  - intros H. destruct (IH H). auto.
Qed.

Lemma find_table_none (n : string) (ts : list Mini.table) :
  Mini.find_table n ts = None ->
  forall m, In m (map Mini.t_name ts) -> Mini.same_name n m = false.
Proof.
  induction ts as [|u ts IH]; simpl; [contradiction|].
  destruct (Mini.same_name n (Mini.t_name u)) eqn:Hu; [discriminate|].
  intros H m [<-|Hm]; auto.
Qed.

Lemma find_table_none_not_in (n : string) (ts : list Mini.table) :
  Mini.find_table n ts = None -> ~ In n (map Mini.t_name ts).
Proof.
  intros H Hin. pose proof (find_table_none n ts H n Hin) as Hs.
  unfold Mini.same_name in Hs. now rewrite String.eqb_refl in Hs.
Qed.

Lemma not_in_existsb (n : string) (names : list string) :
  ~ In n names -> existsb (String.eqb n) names = false.
Proof.
  intros H. destruct (existsb (String.eqb n) names) eqn:Hex; [|reflexivity].
  apply existsb_exists in Hex as (x & Hx & Heq).
  apply String.eqb_eq in Heq. now subst.
Qed.

Lemma user_tables_app (a b : list string) :
  user_tables (a ++ b) = (user_tables a ++ user_tables b)%list.
Proof. apply filter_app. Qed.

Lemma mini_valid_not_internal (name : string) (cols : dict string) :
  mini_valid name cols -> name <> "sqlite_sequence".
Proof. intros [-> _]. discriminate. Qed.

Lemma mini_catalog_has_no_duplicates (e : Mini.state) :
  mini_ready e -> NoDup (mini_names e).
Proof. now intros (_ & H & _). Qed.

Lemma mini_create_if_not_exists (e : Mini.state) (name : string) (cols : dict string) :
  mini_ready e -> mini_valid name cols ->
  exists e',
    cursor_execute (create_table_sql name cols) [] e = (inr tt, e')
    /\ mini_ready e'
    /\ user_tables (mini_names e')
       = if existsb (String.eqb name) (mini_names e)
         then user_tables (mini_names e)
         else (user_tables (mini_names e) ++ [name])%list.
Proof.
  intros (Hu & Hnd & Hcase) [-> ->].
  assert (Hp : Mini.parse (create_table_sql "users" users_columns)
               = inr (Mini.Create true "users"
                        [("id", ["INTEGER"; "PRIMARY"; "KEY"; "AUTOINCREMENT"]);
                         ("name", ["TEXT"; "NOT"; "NULL"]);
                         ("age", ["INTEGER"]);
                         ("email", ["TEXT"; "UNIQUE"])]))
    by (vm_compute; reflexivity).
  cbn [cursor_execute Mini.engine]. unfold Mini.do_execute. rewrite Hu, Hp.
  cbn [Mini.run length Nat.eqb negb]. unfold Mini.run_create.
  change (startswith (upper "users") "SQLITE_") with false. cbv iota.
  destruct (Mini.find_table "users" (Mini.tables e)) as [t|] eqn:Hf.
  - destruct (find_table_some _ _ _ Hf) as [Hin Hsame].
    pose proof (Hcase _ Hin Hsame) as Hname. rewrite Hname in Hin.
    eexists. split; [reflexivity|]. split.
    + repeat split; assumption.
    + change (mini_names (Mini.after e (Mini.tables e) _ _ _ _)) with (mini_names e).
      apply existsb_eqb_in in Hin. fold (mini_names e) in Hin. now rewrite Hin.
  - pose proof (find_table_none_not_in _ _ Hf) as Hnot.
    fold (mini_names e) in Hnot.
    rewrite (not_in_existsb _ _ Hnot).
    change (Mini.duplicate _) with (@None string).
    change (Mini.autoincrement _) with true. cbv iota.
    eexists. split; [reflexivity|].
    destruct (Mini.find_table "sqlite_sequence" (Mini.tables e)) as [q|] eqn:Hq.
    + split.
      * repeat split; [exact Hu | |].
        -- unfold mini_names. simpl. rewrite map_app. simpl.
           apply NoDup_app; [exact Hnd | repeat constructor; simpl; tauto |].
           intros x Hx [<-|[]]. exact (Hnot Hx).
        -- unfold mini_names. simpl. rewrite map_app. simpl.
           intros n Hn Hs. apply in_app_or in Hn as [Hn|[<-|[]]]; auto.
      * unfold mini_names. simpl. rewrite map_app, user_tables_app. reflexivity.
    + pose proof (find_table_none_not_in _ _ Hq) as Hnq.
      split.
      * repeat split; [exact Hu | |].
        -- unfold mini_names. simpl. rewrite map_app. simpl.
           apply NoDup_app; [exact Hnd | repeat constructor; simpl; intuition discriminate |].
           intros x Hx [<-|[<-|[]]]; [exact (Hnot Hx) | exact (Hnq Hx)].
        -- unfold mini_names. simpl. rewrite map_app. simpl.
           intros n Hn Hs. apply in_app_or in Hn as [Hn|[<-|[<-|[]]]]; auto.
           discriminate Hs.
      * unfold mini_names. simpl. rewrite map_app, user_tables_app. reflexivity.
Qed.

Lemma mini_commit_keeps_catalog (e : Mini.state) :
  mini_ready e ->
  exists e', connection_commit e = (inr tt, e') /\ mini_ready e'
             /\ mini_names e' = mini_names e.
Proof.
  intros (Hu & Hnd & Hcase).
  cbn [connection_commit Mini.engine]. unfold Mini.do_commit. rewrite Hu.
  eexists. split; [reflexivity|]. repeat split; assumption.
Qed.

Lemma master_rows_names (ts : list Mini.table) (page : Z) :
  map (fun r => map (Mini.field Mini.master_cols r) ["name"])
      (filter (Mini.satisfies Mini.master_cols [("type", VStr "table")])
              (Mini.master_rows ts page))
  = map (fun n => [VStr n]) (map Mini.t_name ts).
Proof.
  revert page. induction ts as [|t ts IH]; intros page; [reflexivity|].
  simpl Mini.master_rows.
  change (filter ?f (?r :: ?rs)) with (if f r then r :: filter f rs else filter f rs).
  change (Mini.satisfies Mini.master_cols [("type", VStr "table")]
            [VStr "table"; VStr (Mini.t_name t); VStr (Mini.t_name t); VInt page;
             VStr (Mini.t_sql t)]) with true.
  cbv iota. simpl map at 1. rewrite IH. reflexivity.
Qed.

Lemma mini_catalog_query_lists_tables (e : Mini.state) :
  mini_ready e ->
  exists e1 e2,
    cursor_execute catalog_sql [] e = (inr tt, e1)
    /\ cursor_fetchall e1 = (inr (map (fun n => [VStr n]) (mini_names e)), e2)
    /\ mini_ready e2
    /\ mini_names e2 = mini_names e.
Proof.
  intros (Hu & Hnd & Hcase).
  assert (Hp : Mini.parse catalog_sql
               = inr (Mini.Select (Some ["name"]) "sqlite_master"
                        [("type", Mini.Literal (VStr "table"))] None))
    by (vm_compute; reflexivity).
  cbn [cursor_execute cursor_fetchall Mini.engine].
  unfold Mini.do_execute. rewrite Hu, Hp.
  cbn [Mini.run]. unfold Mini.run_select, Mini.source.
  change (Mini.same_name "sqlite_master" "sqlite_master") with true. cbv iota.
  change (Mini.unknown_column _ _) with (@None string).
  cbn [length map Nat.eqb negb Mini.count_marks filter snd fst Mini.resolve].
  rewrite master_rows_names.
  eexists _, _. split; [reflexivity|].
  unfold Mini.do_fetchall.
  change (Mini.usable (Mini.after e _ _ _ _ _)) with (Mini.usable e). rewrite Hu.
  split; [reflexivity|]. repeat split; assumption.
Qed.

(** ** The methods on [Mini] *)

Lemma example_world_connected : connected (self example_world).
Proof. split; vm_compute; reflexivity. Qed.

Lemma fresh_world_ready : connected (self fresh_world) /\ mini_ready (sqlite fresh_world).
Proof.
  split; [split; vm_compute; reflexivity|].
  split; [vm_compute; reflexivity|].
  split; [constructor | intros n []].
Qed.

(** The table of the example after the setup. *)
Lemma example_world_rows :
  rows_of "users" example_world
  = [[VInt 1; VStr "张三"; VInt 28; VStr "zhangsan@example.com"];
     [VInt 2; VStr "李四"; VInt 30; VStr "lisi@example.com"];
     [VInt 3; VStr "王五"; VInt 25; VStr "wangwu@example.com"]].
Proof. vm_compute. reflexivity. Qed.

(** On a path that cannot be opened the constructor returns, and
    [create_table] then raises [AttributeError]. *)
Lemma absent_connection_raises_witness :
  sqlite3_connect "/" (Mini.fresh ["/"])
  = (inl (Sqlite3Error OperationalError "unable to open database file"), Mini.fresh ["/"])
  /\ exists w,
       new "/" (Mini.fresh ["/"]) = (Returned tt, w)
       /\ create_table "users" users_columns w = (Raised (no_attribute "execute"), w)
       /\ select "users" None "*" None w = (Raised (no_attribute "execute"), w).
Proof.
  assert (H : sqlite3_connect "/" (Mini.fresh ["/"])
              = (inl (Sqlite3Error OperationalError "unable to open database file"),
                 Mini.fresh ["/"])) by reflexivity.
  split; [exact H|].
  destruct (absent_connection_raises "/" (Mini.fresh ["/"]) (Mini.fresh ["/"])
              OperationalError "unable to open database file" H)
    as (w & Hn & _ & Hc & _ & _ & Hs & _).
  exists w. repeat apply conj; [exact Hn | apply Hc | apply Hs].
Defined.

(** Counterexample to C2: on the table of the example, [update] and
    [delete] with an empty conditions dict return false and leave all three
    rows as they were; no row takes the new age and none is deleted. *)
Lemma empty_conditions_change_no_row :
  fst (update "users" [("age", VInt 99)] [] example_world) = Returned false
  /\ rows_of "users" (snd (update "users" [("age", VInt 99)] [] example_world))
     = [[VInt 1; VStr "张三"; VInt 28; VStr "zhangsan@example.com"];
        [VInt 2; VStr "李四"; VInt 30; VStr "lisi@example.com"];
        [VInt 3; VStr "王五"; VInt 25; VStr "wangwu@example.com"]]
  /\ fst (delete "users" [] example_world) = Returned false
  /\ rows_of "users" (snd (delete "users" [] example_world))
     = [[VInt 1; VStr "张三"; VInt 28; VStr "zhangsan@example.com"];
        [VInt 2; VStr "李四"; VInt 30; VStr "lisi@example.com"];
        [VInt 3; VStr "王五"; VInt 25; VStr "wangwu@example.com"]].
Proof. vm_compute. repeat apply conj; reflexivity. Qed.

(** On the table of the example both calls fail with SQLite's
    [incomplete input] and leave the library as it was. *)
Lemma empty_conditions_stop_after_where_witness :
  connected (self example_world)
  /\ update "users" [("age", VInt 99)] [] example_world
     = (Returned false,
        mkWorld (self example_world) (sqlite example_world)
          (stdout example_world ++ ["更新数据失败: incomplete input"])%list)
  /\ delete "users" [] example_world
     = (Returned false,
        mkWorld (self example_world) (sqlite example_world)
          (stdout example_world ++ ["删除数据失败: incomplete input"])%list).
Proof.
  split; [exact example_world_connected|].
  apply (empty_conditions_stop_after_where "users" [("age", VInt 99)] example_world
           OperationalError OperationalError "incomplete input" "incomplete input"
           (sqlite example_world) (sqlite example_world) example_world_connected).
  - vm_compute. reflexivity.
  - vm_compute. reflexivity.
Defined.

(** With a limit of 0 [select] builds a statement without LIMIT and
    returns all three rows of the example; with a limit of 2 it returns
    two. *)
Lemma select_limit_zero_returns_all_rows :
  fst (select_statement "users" None "name" (Some 0%Z)) = "SELECT name FROM users"
  /\ fst (select "users" None "name" (Some 0%Z) example_world)
     = Returned [[("name", VStr "张三")]; [("name", VStr "李四")]; [("name", VStr "王五")]]
  /\ fst (select "users" None "name" (Some 2%Z) example_world)
     = Returned [[("name", VStr "张三")]; [("name", VStr "李四")]].
Proof. vm_compute. repeat apply conj; reflexivity. Qed.

(** A record with its keys in another order is bound by position: its
    e-mail address lands in the name column and its name in the e-mail
    column. *)
Lemma bulk_insert_binds_by_position :
  rows_of "users" (snd (bulk_insert "users" [zhao_liu; sun_qi] example_world))
  = [[VInt 1; VStr "张三"; VInt 28; VStr "zhangsan@example.com"];
     [VInt 2; VStr "李四"; VInt 30; VStr "lisi@example.com"];
     [VInt 3; VStr "王五"; VInt 25; VStr "wangwu@example.com"];
     [VInt 4; VStr "赵六"; VInt 41; VStr "zhaoliu@example.com"];
     [VInt 5; VStr "sunqi@example.com"; VInt 33; VStr "孙七"]].
Proof. vm_compute. reflexivity. Qed.

(** The call with the reordered record is the call with the record as it
    is bound. *)
Lemma bulk_insert_uses_first_record_witness :
  map values [sun_qi] = map values [as_bound]
  /\ bulk_insert "users" [zhao_liu; sun_qi] example_world
     = bulk_insert "users" [zhao_liu; as_bound] example_world.
Proof.
  split; [reflexivity|].
  apply (proj2 (proj2 (bulk_insert_uses_first_record "users" "example.db" zhao_liu
                         [as_bound] example_world))).
  reflexivity.
Defined.

(** Counterexample to C5: a statement the engine rejects is neither
    fetched nor committed, whatever its first word.  The DELETE below does
    not pass the test for a query, and the number of commits is the same
    before and after; the SELECT passes it, and its result is the empty
    list of the handler. *)
Lemma execute_sql_rejected_statement :
  is_query "DELETE FROM missing WHERE id = ?" = false
  /\ execute_sql "DELETE FROM missing WHERE id = ?" (Some [VInt 1]) example_world
     = (Returned [],
        mkWorld (self example_world) (sqlite example_world)
          (stdout example_world ++ ["执行SQL失败: no such table: missing"])%list)
  /\ Mini.commits
       (sqlite (snd (execute_sql "DELETE FROM missing WHERE id = ?" (Some [VInt 1])
                       example_world)))
     = Mini.commits (sqlite example_world)
  /\ is_query "SELECT * FROM missing" = true
  /\ execute_sql "SELECT * FROM missing" None example_world
     = (Returned [],
        mkWorld (self example_world) (sqlite example_world)
          (stdout example_world ++ ["执行SQL失败: no such table: missing"])%list).
Proof. vm_compute. repeat apply conj; reflexivity. Qed.

(** A query with leading blanks in lower case is fetched; an UPDATE is
    committed. *)
Lemma execute_sql_dispatch_witness :
  connected (self example_world)
  /\ fst (execute_sql "  select name from users limit 1" None example_world)
     = Returned [[("name", VStr "张三")]]
  /\ Mini.commits
       (sqlite (snd (execute_sql "update users set age = ? where name = ?"
                       (Some [VInt 29; VStr "张三"]) example_world)))
     = S (Mini.commits (sqlite example_world)).
Proof.
  split; [exact example_world_connected|].
  split.
  - destruct (execute_sql_dispatch "  select name from users limit 1" "example.db" None
                example_world example_world_connected) as (_ & _ & Hq & _).
    erewrite Hq; cycle 1; [vm_compute; reflexivity .. | ]. vm_compute. reflexivity.
  - destruct (execute_sql_dispatch "update users set age = ? where name = ?" "example.db"
                (Some [VInt 29; VStr "张三"]) example_world example_world_connected)
      as (_ & _ & _ & Hc & _).
    erewrite Hc; cycle 1; [vm_compute; reflexivity .. | ]. vm_compute. reflexivity.
Defined.

(** [disconnect] after a failed [connect] changes nothing; on the example
    it closes the connection. *)
Lemma disconnect_closes_if_connected_witness :
  connection (self failed_world) = None
  /\ disconnect failed_world = (Returned tt, failed_world)
  /\ Mini.closed (sqlite (snd (disconnect example_world))) = true.
Proof.
  split; [reflexivity|]. split.
  - apply (proj1 (disconnect_closes_if_connected failed_world "/")). reflexivity.
  - rewrite (proj1 (proj2 (disconnect_closes_if_connected example_world "example.db"))
               ConnectionObject eq_refl).
    reflexivity.
Defined.

(** With an empty conditions dict [select] returns every row. *)
Lemma select_empty_conditions_returns_all_rows :
  fst (select "users" (Some []) "name" None example_world)
  = Returned [[("name", VStr "张三")]; [("name", VStr "李四")]; [("name", VStr "王五")]].
Proof. vm_compute. reflexivity. Qed.


(** The catalog of the example holds [users] and SQLite's own
    [sqlite_sequence]; [get_all_tables] returns the first only. *)
Lemma get_all_tables_hides_sequence :
  mini_names (sqlite example_world) = ["users"; "sqlite_sequence"]
  /\ fst (get_all_tables example_world) = Returned [VStr "users"].
Proof. vm_compute. split; reflexivity. Qed.

(** * Further properties of the methods *)

Section Construction.

Context {E : Type} {engine : Sqlite3 E}.

(** X1: the constructor stores the path and never lets an [sqlite3.Error]
    out.  The facade it leaves is connected exactly when [sqlite3.connect]
    and then [connection.cursor()] both returned; in that case the success
    line is the only output.  When [cursor()] raises an [sqlite3.Error]
    the connection stays set and the cursor stays [None]. *)
Theorem constructor_connects_iff_both_calls_return (path : string) (e : E) :
  db_path (self (snd (new path e))) = path
  /\ (forall k msg, fst (new path e) <> Raised (Sqlite3Error k msg))
  /\ (connected (self (snd (new path e)))
      <-> exists e1 e2,
            sqlite3_connect path e = (inr tt, e1)
            /\ connection_cursor e1 = (inr tt, e2))
  /\ (forall e1 e2,
        sqlite3_connect path e = (inr tt, e1) ->
        connection_cursor e1 = (inr tt, e2) ->
        new path e
        = (Returned tt,
           mkWorld (mkLiteDBManager path (Some ConnectionObject) (Some CursorObject))
                   e2 [("成功连接到数据库: " ++ path)%string]))
  /\ (forall e1 e2 k msg,
        sqlite3_connect path e = (inr tt, e1) ->
        connection_cursor e1 = (inl (Sqlite3Error k msg), e2) ->
        new path e
        = (Returned tt,
           mkWorld (mkLiteDBManager path (Some ConnectionObject) None)
                   e2 [("连接数据库失败: " ++ msg)%string])).
Proof.
  unfold new, __init__, connect, try_except, bind, get_db_path, lift, set_connection,
    self_connection, set_cursor, print, connected.
  cbn [self sqlite stdout db_path connection cursor fst snd].
  destruct (sqlite3_connect path e) as [[x|[]] e1] eqn:Hc.
  - split; [|split; [|split; [|split]]].
    + now destruct x.
    + intros k msg. now destruct x.
    + split.
      * destruct x; simpl; intros [H _]; discriminate.
      * intros (a & b & H & _). discriminate.
    + intros a b H. discriminate.
    + intros a b k msg H. discriminate.
  - cbn [self sqlite stdout db_path connection cursor fst snd].
    destruct (connection_cursor e1) as [[y|[]] e2] eqn:Hk.
    + split; [|split; [|split; [|split]]].
      * now destruct y.
      * intros k msg. now destruct y.
      * split.
        -- destruct y; simpl; intros [_ H]; discriminate.
        -- intros (a & b & [= <-] & H). rewrite Hk in H. discriminate.
      * intros a b [= <-] H. rewrite Hk in H. discriminate.
      * intros a b k msg [= <-] H. rewrite Hk in H. injection H as -> ->. reflexivity.
    + split; [|split; [|split; [|split]]].
      * reflexivity.
      * intros k msg. discriminate.
      * split; [|now split]. intros _. now exists e1, e2.
      * intros a b [= <-] H. rewrite Hk in H. now injection H as ->.
      * intros a b k msg [= <-] H. rewrite Hk in H. discriminate.
Qed.

End Construction.

(** ** What the methods leave alone *)

Section Frame.

Context {E : Type} {engine : Sqlite3 E}.

Lemma keeps_ret {A} (a : A) : keeps_facade (ret a : M E A).
Proof. intros w. split; [reflexivity|]. exists []. simpl. now rewrite app_nil_r. Qed.

Lemma keeps_raise {A} (x : exn) : keeps_facade (raise x : M E A).
Proof. intros w. split; [reflexivity|]. exists []. simpl. now rewrite app_nil_r. Qed.

Lemma keeps_print (line : string) : keeps_facade (print line : M E unit).
Proof. intros w. split; [reflexivity|]. now exists [line]. Qed.

Lemma keeps_lift {A} (c : call E A) : keeps_facade (lift c).
Proof.
  intros w. unfold lift. destruct (c (sqlite w)) as [[x|a] e']; simpl;
    (split; [reflexivity|]; exists []; now rewrite app_nil_r).
Qed.

Lemma keeps_read {A} (f : E -> A) : keeps_facade (read f).
Proof. intros w. split; [reflexivity|]. exists []. simpl. now rewrite app_nil_r. Qed.

Lemma keeps_self_cursor (attr : string) : keeps_facade (self_cursor attr : M E Cursor).
Proof.
  intros w. unfold self_cursor. destruct (cursor (self w)); simpl;
    (split; [reflexivity|]; exists []; now rewrite app_nil_r).
Qed.

Lemma keeps_self_connection (attr : string) :
  keeps_facade (self_connection attr : M E Connection).
Proof.
  intros w. unfold self_connection. destruct (connection (self w)); simpl;
    (split; [reflexivity|]; exists []; now rewrite app_nil_r).
Qed.

Lemma keeps_get_connection : keeps_facade (get_connection : M E (option Connection)).
Proof. intros w. split; [reflexivity|]. exists []. simpl. now rewrite app_nil_r. Qed.

Lemma keeps_bind {A B} (m : M E A) (k : A -> M E B) :
  keeps_facade m -> (forall a, keeps_facade (k a)) -> keeps_facade (bind m k).
Proof.
  intros Hm Hk w. unfold bind.
  destruct (Hm w) as (Hs & l1 & Ho).
  destruct (m w) as [[a|x] w1]; simpl in *.
  - destruct (Hk a w1) as (Hs2 & l2 & Ho2). split; [congruence|].
    exists (l1 ++ l2)%list. now rewrite Ho2, Ho, app_assoc.
  - split; [exact Hs|]. now exists l1.
Qed.

Lemma keeps_try_except {A} (body : M E A) (handler : string -> M E A) :
  keeps_facade body -> (forall msg, keeps_facade (handler msg)) ->
  keeps_facade (try_except body handler).
Proof.
  intros Hb Hh w. unfold try_except.
  destruct (Hb w) as (Hs & l1 & Ho).
  destruct (body w) as [[a|x] w1]; simpl in *.
  - split; [exact Hs|]. now exists l1.
  - destruct x as [k msg| | | | |]; simpl; try (split; [exact Hs|]; now exists l1).
    destruct (Hh msg w1) as (Hs2 & l2 & Ho2). split; [congruence|].
    exists (l1 ++ l2)%list. now rewrite Ho2, Ho, app_assoc.
Qed.

Lemma keeps_execute (sql : string) (params : list value) :
  keeps_facade (execute sql params : M E unit).
Proof.
  unfold execute. apply keeps_bind; [apply keeps_self_cursor | intros _; apply keeps_lift].
Qed.

Lemma keeps_executemany (sql : string) (seq : list (list value)) :
  keeps_facade (executemany sql seq : M E unit).
Proof.
  unfold executemany. apply keeps_bind; [apply keeps_self_cursor | intros _; apply keeps_lift].
Qed.

Lemma keeps_fetchall : keeps_facade (fetchall : M E (list row)).
Proof.
  unfold fetchall. apply keeps_bind; [apply keeps_self_cursor | intros _; apply keeps_lift].
Qed.

Lemma keeps_commit : keeps_facade (commit : M E unit).
Proof.
  unfold commit. apply keeps_bind; [apply keeps_self_connection | intros _; apply keeps_lift].
Qed.

Lemma keeps_lastrowid : keeps_facade (lastrowid : M E (option Z)).
Proof.
  unfold lastrowid. apply keeps_bind; [apply keeps_self_cursor | intros _; apply keeps_read].
Qed.

Lemma keeps_rowcount : keeps_facade (rowcount : M E Z).
Proof.
  unfold rowcount. apply keeps_bind; [apply keeps_self_cursor | intros _; apply keeps_read].
Qed.

Lemma keeps_column_names : keeps_facade (column_names : M E (list string)).
Proof.
  unfold column_names. apply keeps_bind; [apply keeps_self_cursor|]. intros _.
  apply keeps_bind; [apply keeps_read|].
  intros [names|]; [apply keeps_ret | apply keeps_raise].
Qed.

(** X2: apart from the constructor's [connect], no method assigns an
    attribute of the facade: after [create_table], [insert], [bulk_insert],
    [select], [update], [delete], [get_all_tables], [execute_sql] and
    [disconnect] the path, the connection and the cursor are what they
    were, whatever the engine did and however the call ended, and the
    output has only grown.  In particular a failed call never clears the
    handles, and [disconnect] leaves the closed connection and its cursor
    in place. *)
Theorem methods_keep_the_facade :
  (forall t cols, keeps_facade (create_table t cols : M E bool))
  /\ (forall t data, keeps_facade (insert t data : M E bool))
  /\ (forall t l, keeps_facade (bulk_insert t l : M E bool))
  /\ (forall t c cols l, keeps_facade (select t c cols l : M E (list record)))
  /\ (forall t data c, keeps_facade (update t data c : M E bool))
  /\ (forall t c, keeps_facade (delete t c : M E bool))
  /\ keeps_facade (get_all_tables : M E (list value))
  /\ (forall sql p, keeps_facade (execute_sql sql p : M E (list record)))
  /\ keeps_facade (disconnect : M E unit).
Proof.
  repeat apply conj.
  - intros t cols. unfold create_table. repeat first
      [ apply keeps_execute | apply keeps_executemany | apply keeps_fetchall
      | apply keeps_commit | apply keeps_lastrowid | apply keeps_rowcount
      | apply keeps_column_names | apply keeps_ret | apply keeps_print
      | apply keeps_lift | apply keeps_get_connection
      | apply keeps_try_except | apply keeps_bind
      | match goal with |- forall _, keeps_facade _ => intro end ].
  - intros t data. unfold insert. repeat first
      [ apply keeps_execute | apply keeps_executemany | apply keeps_fetchall
      | apply keeps_commit | apply keeps_lastrowid | apply keeps_rowcount
      | apply keeps_column_names | apply keeps_ret | apply keeps_print
      | apply keeps_lift | apply keeps_get_connection
      | apply keeps_try_except | apply keeps_bind
      | match goal with |- forall _, keeps_facade _ => intro end ].
  - intros t [|first rest]; unfold bulk_insert; [apply keeps_ret|]. repeat first
      [ apply keeps_execute | apply keeps_executemany | apply keeps_fetchall
      | apply keeps_commit | apply keeps_lastrowid | apply keeps_rowcount
      | apply keeps_column_names | apply keeps_ret | apply keeps_print
      | apply keeps_lift | apply keeps_get_connection
      | apply keeps_try_except | apply keeps_bind
      | match goal with |- forall _, keeps_facade _ => intro end ].
  - intros t c cols l. unfold select.
    destruct (select_statement t c cols l) as [sql params]. repeat first
      [ apply keeps_execute | apply keeps_executemany | apply keeps_fetchall
      | apply keeps_commit | apply keeps_lastrowid | apply keeps_rowcount
      | apply keeps_column_names | apply keeps_ret | apply keeps_print
      | apply keeps_lift | apply keeps_get_connection
      | apply keeps_try_except | apply keeps_bind
      | match goal with |- forall _, keeps_facade _ => intro end ].
  - intros t data c. unfold update.
    destruct (update_statement t data c) as [sql params]. repeat first
      [ apply keeps_execute | apply keeps_executemany | apply keeps_fetchall
      | apply keeps_commit | apply keeps_lastrowid | apply keeps_rowcount
      | apply keeps_column_names | apply keeps_ret | apply keeps_print
      | apply keeps_lift | apply keeps_get_connection
      | apply keeps_try_except | apply keeps_bind
      | match goal with |- forall _, keeps_facade _ => intro end ].
  - intros t c. unfold delete.
    destruct (delete_statement t c) as [sql params]. repeat first
      [ apply keeps_execute | apply keeps_executemany | apply keeps_fetchall
      | apply keeps_commit | apply keeps_lastrowid | apply keeps_rowcount
      | apply keeps_column_names | apply keeps_ret | apply keeps_print
      | apply keeps_lift | apply keeps_get_connection
      | apply keeps_try_except | apply keeps_bind
      | match goal with |- forall _, keeps_facade _ => intro end ].
  - unfold get_all_tables. apply keeps_try_except; [|repeat first
      [ apply keeps_execute | apply keeps_executemany | apply keeps_fetchall
      | apply keeps_commit | apply keeps_lastrowid | apply keeps_rowcount
      | apply keeps_column_names | apply keeps_ret | apply keeps_print
      | apply keeps_lift | apply keeps_get_connection
      | apply keeps_try_except | apply keeps_bind
      | match goal with |- forall _, keeps_facade _ => intro end ]].
    apply keeps_bind; [apply keeps_execute|]. intros _.
    apply keeps_bind; [apply keeps_fetchall|]. intros tables.
    destruct (first_fields tables); [apply keeps_raise | apply keeps_ret].
  - intros sql p. unfold execute_sql. apply keeps_try_except; [|repeat first
      [ apply keeps_execute | apply keeps_executemany | apply keeps_fetchall
      | apply keeps_commit | apply keeps_lastrowid | apply keeps_rowcount
      | apply keeps_column_names | apply keeps_ret | apply keeps_print
      | apply keeps_lift | apply keeps_get_connection
      | apply keeps_try_except | apply keeps_bind
      | match goal with |- forall _, keeps_facade _ => intro end ]].
    apply keeps_bind; [apply keeps_execute|]. intros _.
    destruct (is_query sql); repeat first
      [ apply keeps_execute | apply keeps_executemany | apply keeps_fetchall
      | apply keeps_commit | apply keeps_lastrowid | apply keeps_rowcount
      | apply keeps_column_names | apply keeps_ret | apply keeps_print
      | apply keeps_lift | apply keeps_get_connection
      | apply keeps_try_except | apply keeps_bind
      | match goal with |- forall _, keeps_facade _ => intro end ].
  - unfold disconnect. apply keeps_bind; [apply keeps_get_connection|].
    intros [c|]; repeat first
      [ apply keeps_execute | apply keeps_executemany | apply keeps_fetchall
      | apply keeps_commit | apply keeps_lastrowid | apply keeps_rowcount
      | apply keeps_column_names | apply keeps_ret | apply keeps_print
      | apply keeps_lift | apply keeps_get_connection
      | apply keeps_try_except | apply keeps_bind
      | match goal with |- forall _, keeps_facade _ => intro end ].
Qed.

(** X3: which calls each method makes, as the recording engine sees them.
    [create_table], [update] and [delete] hand over one statement and
    commit at once; [select] and [get_all_tables] hand over one statement
    and fetch, and never commit. *)
Theorem one_statement_per_call (path table_name columns : string)
    (schema : dict string) (data : record) (conditions : record)
    (filter : option record) (limit : option Z) :
  calls_of (create_table table_name schema) path
  = [Spy.Executed (create_table_sql table_name schema) []; Spy.Committed]
  /\ calls_of (update table_name data conditions) path
     = [Spy.Executed (fst (update_statement table_name data conditions))
          (values data ++ values conditions)%list;
        Spy.Committed]
  /\ calls_of (delete table_name conditions) path
     = [Spy.Executed (fst (delete_statement table_name conditions)) (values conditions);
        Spy.Committed]
  /\ calls_of (select table_name filter columns limit) path
     = [Spy.Executed (fst (select_statement table_name filter columns limit))
          (match filter with Some c => values c | None => [] end);
        Spy.Fetched]
  /\ calls_of get_all_tables path = [Spy.Executed catalog_sql []; Spy.Fetched].
Proof.
  repeat apply conj; try reflexivity.
  unfold calls_of, select.
  destruct filter as [[|c cs]|]; reflexivity.
Qed.

End Frame.

(** ** When a change is reported as made *)

Section Reports.

Context {E : Type} {engine : Sqlite3 E}.

Lemma lastrowid_present (w : world E) :
  connected (self w) -> lastrowid w = (Returned (cursor_lastrowid (sqlite w)), w).
Proof.
  intros H. unfold lastrowid, bind. now rewrite self_cursor_present.
Qed.

Lemma rowcount_present (w : world E) :
  connected (self w) -> rowcount w = (Returned (cursor_rowcount (sqlite w)), w).
Proof.
  intros H. unfold rowcount, bind. now rewrite self_cursor_present.
Qed.

(** A method of the shape [try: first; commit; tail; except: handler], whose
    tail returns true and whose handler returns false, returns true exactly
    when the first call and the commit both return. *)
Lemma committed_iff (first : M E unit) (c : call E unit) (tail : M E bool)
    (handler : string -> M E bool) (w : world E) :
  connected (self w) ->
  first w = lift c w ->
  (forall w', connected (self w') -> exists w'', tail w' = (Returned true, w'')) ->
  (forall msg w', exists w'', handler msg w' = (Returned false, w'')) ->
  fst (try_except (first ;; commit ;; tail)%py handler w) = Returned true
  <-> exists e1 e2, c (sqlite w) = (inr tt, e1) /\ connection_commit e1 = (inr tt, e2).
Proof.
  intros Hw Hf Ht Hh. unfold try_except, bind. rewrite Hf. unfold lift at 1.
  destruct (c (sqlite w)) as [[x|[]] e1].
  - split.
    + destruct x as [k msg| | | | |]; simpl; try discriminate.
      destruct (Hh msg (mkWorld (self w) e1 (stdout w))) as (w'' & ->). discriminate.
    + intros (a & b & H & _). discriminate.
  - rewrite commit_present by exact Hw. unfold lift.
    cbn [self sqlite stdout].
    destruct (connection_commit e1) as [[x|[]] e2] eqn:Hk.
    + split.
      * destruct x as [k msg| | | | |]; simpl; try discriminate.
        destruct (Hh msg (mkWorld (self w) e2 (stdout w))) as (w'' & ->). discriminate.
      * intros (a & b & [= <-] & H). rewrite Hk in H. discriminate.
    + destruct (Ht (mkWorld (self w) e2 (stdout w)) Hw) as (w'' & ->).
      split; [|reflexivity]. intros _. now exists e1, e2.
Qed.

(** X4: on a connected facade each changing method returns true exactly
    when the engine returned from both the statement and the commit that
    follows it; a false result therefore also covers a statement that ran
    and whose commit failed. *)
Theorem change_reported_iff_executed_and_committed (w : world E) :
  connected (self w) ->
  (forall t cols,
      fst (create_table t cols w) = Returned true
      <-> exists e1 e2,
            cursor_execute (create_table_sql t cols) [] (sqlite w) = (inr tt, e1)
            /\ connection_commit e1 = (inr tt, e2))
  /\ (forall t data,
      fst (insert t data w) = Returned true
      <-> exists e1 e2,
            cursor_execute (insert_sql t data) (values data) (sqlite w) = (inr tt, e1)
            /\ connection_commit e1 = (inr tt, e2))
  /\ (forall t first rest,
      fst (bulk_insert t (first :: rest) w) = Returned true
      <-> exists e1 e2,
            cursor_executemany (insert_sql t first) (map values (first :: rest)) (sqlite w)
            = (inr tt, e1)
            /\ connection_commit e1 = (inr tt, e2))
  /\ (forall t data c,
      fst (update t data c w) = Returned true
      <-> exists e1 e2,
            cursor_execute (fst (update_statement t data c)) (snd (update_statement t data c))
              (sqlite w) = (inr tt, e1)
            /\ connection_commit e1 = (inr tt, e2))
  /\ (forall t c,
      fst (delete t c w) = Returned true
      <-> exists e1 e2,
            cursor_execute (fst (delete_statement t c)) (snd (delete_statement t c))
              (sqlite w) = (inr tt, e1)
            /\ connection_commit e1 = (inr tt, e2)).
Proof.
  intros Hw.
  assert (Hh : forall line msg (w' : world E),
             exists w'', (print (line ++ msg) ;; ret false)%py w' = (Returned false, w''))
    by (intros; now eexists).
  split; [|split; [|split; [|split]]].
  - intros t cols. unfold create_table.
    apply committed_iff; [exact Hw | now apply execute_present | | apply Hh].
    intros w' _. now eexists.
  - intros t data. unfold insert.
    apply committed_iff; [exact Hw | now apply execute_present | | apply Hh].
    intros w' Hw'. unfold bind. rewrite lastrowid_present by exact Hw'. now eexists.
  - intros t first rest. unfold bulk_insert.
    apply (committed_iff _ (cursor_executemany (insert_sql t first)
                              (map values (first :: rest))));
      [exact Hw | now apply executemany_present | | apply Hh].
    intros w' _. now eexists.
  - intros t data c. unfold update.
    destruct (update_statement t data c) as [sql params]. cbn [fst snd].
    apply committed_iff; [exact Hw | now apply execute_present | | apply Hh].
    intros w' Hw'. unfold bind. rewrite rowcount_present by exact Hw'. now eexists.
  - intros t c. unfold delete.
    destruct (delete_statement t c) as [sql params]. cbn [fst snd].
    apply committed_iff; [exact Hw | now apply execute_present | | apply Hh].
    intros w' Hw'. unfold bind. rewrite rowcount_present by exact Hw'. now eexists.
Qed.

(** X5: when [executemany] raises an [sqlite3.Error], [bulk_insert]
    reports the failure and returns false, and the library is left exactly
    as the failed call left it: nothing is committed and nothing is undone,
    so what the call did for the records before the failing one stays. *)
Theorem bulk_insert_failure_is_not_undone (table_name : string) (first : record)
    (rest : list record) (w : world E) (k : sqlite_kind) (msg : string) (e1 : E) :
  connected (self w) ->
  cursor_executemany (insert_sql table_name first) (map values (first :: rest)) (sqlite w)
  = (inl (Sqlite3Error k msg), e1) ->
  bulk_insert table_name (first :: rest) w
  = (Returned false,
     mkWorld (self w) e1 (stdout w ++ [("批量插入失败: " ++ msg)%string])%list).
Proof.
  intros Hw He. unfold bulk_insert, try_except, bind.
  rewrite executemany_present by exact Hw. unfold lift.
  change (map (fun data : dict value => values data) (first :: rest))
    with (map values (first :: rest)).
  now rewrite He.
Qed.

End Reports.

(** On the example a record that is two values short makes [executemany]
    fail; [bulk_insert] returns false and the record before it is in the
    table. *)
Lemma bulk_insert_failure_is_not_undone_witness :
  connected (self example_world)
  /\ fst (bulk_insert "users" [zhao_liu; zhou_ba] example_world) = Returned false
  /\ rows_of "users" (snd (bulk_insert "users" [zhao_liu; zhou_ba] example_world))
     = [[VInt 1; VStr "张三"; VInt 28; VStr "zhangsan@example.com"];
        [VInt 2; VStr "李四"; VInt 30; VStr "lisi@example.com"];
        [VInt 3; VStr "王五"; VInt 25; VStr "wangwu@example.com"];
        [VInt 4; VStr "赵六"; VInt 41; VStr "zhaoliu@example.com"]]
  /\ Mini.commits (sqlite (snd (bulk_insert "users" [zhao_liu; zhou_ba] example_world)))
     = Mini.commits (sqlite example_world).
Proof.
  split; [exact example_world_connected|].
  erewrite (bulk_insert_failure_is_not_undone "users" zhao_liu [zhou_ba] example_world);
    cycle 1; [exact example_world_connected | vm_compute; reflexivity |].
  vm_compute. repeat apply conj; reflexivity.
Defined.

(** On the example [insert] of a new record returns true, the statement
    and the commit having returned. *)
Lemma change_reported_iff_executed_and_committed_witness :
  connected (self example_world)
  /\ fst (insert "users" zhao_liu example_world) = Returned true.
Proof.
  split; [exact example_world_connected|].
  apply (proj1 (proj2 (change_reported_iff_executed_and_committed example_world
                         example_world_connected))).
  eexists _, _. split; vm_compute; reflexivity.
Defined.

(** ** Result rows as records *)

Lemma dict_setitem_fresh {V} (k : string) (v : V) (d : dict V) :
  ~ In k (keys d) -> dict_setitem k v d = (d ++ [(k, v)])%list.
Proof.
  induction d as [|[k' v'] d IH]; simpl; intros H; [reflexivity|].
  destruct (String.eqb_spec k k') as [->|Hne]; [tauto|].
  rewrite IH by tauto. reflexivity.
Qed.

Lemma dict_setitem_keys {V} (k : string) (v : V) (d : dict V) :
  keys (dict_setitem k v d)
  = if existsb (String.eqb k) (keys d) then keys d else (keys d ++ [k])%list.
Proof.
  induction d as [|[k' v'] d IH]; simpl; [reflexivity|].
  destruct (String.eqb k k'); simpl; [reflexivity|].
  rewrite IH. now destruct (existsb (String.eqb k) (keys d)).
Qed.

Lemma dict_setitem_nodup {V} (k : string) (v : V) (d : dict V) :
  NoDup (keys d) -> NoDup (keys (dict_setitem k v d)).
Proof.
  intros H. rewrite dict_setitem_keys.
  destruct (existsb (String.eqb k) (keys d)) eqn:Hex; [exact H|].
  apply NoDup_app; [exact H | repeat constructor; simpl; tauto |].
  intros x Hx [Heq|[]]. subst x.
  assert (Ht : existsb (String.eqb k) (keys d) = true).
  { apply existsb_exists. exists k. split; [exact Hx | apply String.eqb_refl]. }
  congruence.
Qed.

Lemma dict_get_setitem {V} (k k' : string) (v : V) (d : dict V) :
  dict_get k' (dict_setitem k v d)
  = if String.eqb k' k then Some v else dict_get k' d.
Proof.
  unfold dict_get. induction d as [|[k0 v0] d IH]; simpl.
  - now destruct (String.eqb k' k).
  - destruct (String.eqb_spec k k0) as [->|Hne]; simpl.
    + now destruct (String.eqb k' k0).
    + destruct (String.eqb_spec k' k0) as [->|Hne']; simpl.
      * destruct (String.eqb_spec k0 k); [congruence | reflexivity].
      * exact IH.
Qed.

Lemma dict_get_app {V} (k : string) (a b : dict V) :
  dict_get k (a ++ b)%list
  = match dict_get k a with Some v => Some v | None => dict_get k b end.
Proof.
  unfold dict_get. induction a as [|[k0 v0] a IH]; simpl; [reflexivity|].
  now destruct (String.eqb k k0).
Qed.

Lemma dict_of_from {V} (pairs : list (string * V)) (acc : dict V) :
  let d := fold_left (fun d kv => dict_setitem (fst kv) (snd kv) d) pairs acc in
  (NoDup (keys acc) -> NoDup (keys d))
  /\ (forall k, dict_get k d
                = match last_value k pairs with
                  | Some v => Some v
                  | None => dict_get k acc
                  end)
  /\ (NoDup (keys (acc ++ pairs)%list) -> d = (acc ++ pairs)%list).
Proof.
  revert acc. induction pairs as [|[k0 v0] pairs IH]; intros acc; simpl.
  - repeat apply conj; auto. intros _. now rewrite app_nil_r.
  - destruct (IH (dict_setitem k0 v0 acc)) as (Hn & Hg & He).
    repeat apply conj.
    + intros H. apply Hn. now apply dict_setitem_nodup.
    + intros k. rewrite Hg, dict_get_setitem.
      unfold last_value. simpl. rewrite dict_get_app.
      destruct (dict_get k (rev pairs)); [reflexivity|].
      unfold dict_get at 2. simpl. now destruct (String.eqb k k0).
    + intros H.
      assert (Hfresh : ~ In k0 (keys acc)).
      { unfold keys in H. rewrite map_app in H. simpl in H.
        apply NoDup_remove_2 in H. intros Hin. apply H, in_or_app. now left. }
      rewrite (dict_setitem_fresh _ _ _ Hfresh) in He |- *.
      rewrite <- app_assoc in He. apply He. exact H.
Qed.

(** With distinct keys [dict(pairs)] is the list of pairs itself. *)
Lemma dict_of_nodup {V} (pairs : list (string * V)) :
  NoDup (keys pairs) -> dict_of pairs = pairs.
Proof.
  intros H. exact (proj2 (proj2 (dict_of_from pairs [])) H).
Qed.

Lemma keys_zip {V} (names : list string) (r : list V) :
  length r = length names -> keys (zip names r) = names /\ values (zip names r) = r.
Proof.
  revert r. induction names as [|n names IH]; intros [|v r] H; try discriminate.
  - now split.
  - injection H as H. destruct (IH r H) as [Hk Hv]. unfold zip in *. simpl.
    now rewrite Hk, Hv.
Qed.

Section Records.

Context {E : Type} {engine : Sqlite3 E}.

(** When the statement runs and its rows are fetched, [select] returns
    them as records. *)
Lemma select_fetches (table_name columns : string) (conditions : option record)
    (limit : option Z) (w : world E) (e1 e2 : E) (rows : list row)
    (names : list string) :
  connected (self w) ->
  cursor_execute (fst (select_statement table_name conditions columns limit))
    (snd (select_statement table_name conditions columns limit)) (sqlite w)
  = (inr tt, e1) ->
  cursor_fetchall e1 = (inr rows, e2) ->
  cursor_description e2 = Some names ->
  select table_name conditions columns limit w
  = (Returned (as_records names rows), mkWorld (self w) e2 (stdout w)).
Proof.
  intros Hw He Hf Hd. unfold select.
  destruct (select_statement table_name conditions columns limit) as [sql params].
  cbn [fst snd] in He. unfold try_except, bind.
  rewrite execute_present by exact Hw. unfold lift at 1. rewrite He.
  rewrite fetchall_present by exact Hw. unfold lift. cbn [self sqlite stdout].
  rewrite Hf. unfold column_names, bind.
  rewrite self_cursor_present by exact Hw. unfold read. cbn [sqlite].
  now rewrite Hd.
Qed.

(** X6: when the statement runs and its rows are fetched, [select] returns
    one record per row, in the order of the rows, and prints nothing; with
    distinct column names, a row that has as many fields as there are names
    becomes the record that lists the names in order with the row's values
    beside them. *)
Theorem select_returns_one_record_per_row (table_name columns : string)
    (conditions : option record) (limit : option Z) (w : world E) (e1 e2 : E)
    (rows : list row) (names : list string) :
  connected (self w) ->
  cursor_execute (fst (select_statement table_name conditions columns limit))
    (snd (select_statement table_name conditions columns limit)) (sqlite w)
  = (inr tt, e1) ->
  cursor_fetchall e1 = (inr rows, e2) ->
  cursor_description e2 = Some names ->
  exists records,
    select table_name conditions columns limit w
    = (Returned records, mkWorld (self w) e2 (stdout w))
    /\ length records = length rows
    /\ (NoDup names ->
        forall i r, nth_error rows i = Some r -> length r = length names ->
        exists rec, nth_error records i = Some rec
                    /\ keys rec = names /\ values rec = r).
Proof.
  intros Hw He Hf Hd. exists (as_records names rows). repeat apply conj.
  - now apply (select_fetches _ _ _ _ _ e1).
  - apply length_map.
  - intros Hn i r Hi Hl. exists (zip names r).
    destruct (keys_zip names r Hl) as [Hk Hv]. repeat apply conj; try assumption.
    unfold as_records. rewrite nth_error_map.
    transitivity (option_map (fun r0 : list value => dict_of (zip names r0)) (Some r));
      [f_equal; exact Hi|].
    simpl. f_equal. apply dict_of_nodup. now rewrite Hk.
Qed.

(** X7: a record never has a key twice; when a column name occurs more
    than once in the result, the record has it once and holds the value of
    its last occurrence in the row. *)
Theorem records_have_distinct_keys (names : list string) (rows : list row)
    (rec : record) :
  In rec (as_records names rows) ->
  NoDup (keys rec)
  /\ exists r, In r rows /\ forall k, dict_get k rec = last_value k (zip names r).
Proof.
  unfold as_records. rewrite in_map_iff. intros (r & <- & Hr).
  destruct (dict_of_from (zip names r) []) as (Hn & Hg & _).
  split; [apply Hn; constructor|].
  exists r. split; [exact Hr|]. intros k.
  unfold dict_of. rewrite Hg. now destruct (last_value k (zip names r)).
Qed.

(** X8: a failed query and a query without rows give the caller the same
    value, the empty list; they differ only in what is printed. *)
Theorem select_failure_looks_like_no_rows (table_name columns : string)
    (conditions : option record) (limit : option Z) (w w' : world E)
    (k : sqlite_kind) (msg : string) (e1 e1' e2' : E) (names : list string) :
  connected (self w) -> connected (self w') ->
  cursor_execute (fst (select_statement table_name conditions columns limit))
    (snd (select_statement table_name conditions columns limit)) (sqlite w)
  = (inl (Sqlite3Error k msg), e1) ->
  cursor_execute (fst (select_statement table_name conditions columns limit))
    (snd (select_statement table_name conditions columns limit)) (sqlite w')
  = (inr tt, e1') ->
  cursor_fetchall e1' = (inr [], e2') ->
  cursor_description e2' = Some names ->
  select table_name conditions columns limit w
  = (Returned [], mkWorld (self w) e1 (stdout w ++ [("查询数据失败: " ++ msg)%string])%list)
  /\ select table_name conditions columns limit w'
     = (Returned [], mkWorld (self w') e2' (stdout w')).
Proof.
  intros Hw Hw' He He' Hf Hd. split.
  - unfold select.
    destruct (select_statement table_name conditions columns limit) as [sql params].
    cbn [fst snd] in He. unfold try_except, bind.
    rewrite execute_present by exact Hw. unfold lift. now rewrite He.
  - exact (select_fetches _ _ _ _ _ e1' _ _ _ Hw' He' Hf Hd).
Qed.

Lemma first_fields_filter (rows : list row) (names : list value) :
  first_fields rows = inr names ->
  names = filter (fun v => differs_from_str v "sqlite_sequence") (map (hd VNone) rows).
Proof.
  revert names. induction rows as [|[|v r] rows IH]; simpl; intros names.
  - now intros [= <-].
  - discriminate.
  - destruct (first_fields rows) as [x|ns]; [discriminate|].
    intros [= <-]. rewrite (IH ns eq_refl).
    now destruct (differs_from_str v "sqlite_sequence").
Qed.

(** X9: whatever the engine returns, the list [get_all_tables] returns
    does not contain the name [sqlite_sequence]; when the catalog query
    runs, the list is the first field of every row but those, in the order
    of the rows. *)
Theorem get_all_tables_never_lists_sequence (w w' : world E) (names : list value) :
  get_all_tables w = (Returned names, w') ->
  ~ In (VStr "sqlite_sequence") names
  /\ (connected (self w) ->
      forall e1 e2 rows,
        cursor_execute catalog_sql [] (sqlite w) = (inr tt, e1) ->
        cursor_fetchall e1 = (inr rows, e2) ->
        names = filter (fun v => differs_from_str v "sqlite_sequence")
                  (map (hd VNone) rows)).
Proof.
  intros H. split.
  - revert H. unfold get_all_tables, try_except, bind.
    destruct (execute catalog_sql [] w) as [[[]|x] w1].
    + destruct (fetchall w1) as [[rows|x] w2].
      * destruct (first_fields rows) as [x|ns] eqn:Hff.
        -- unfold raise. destruct x; simpl; intros [= <- _]; tauto.
        -- unfold ret. intros [= <- _] Hin.
           rewrite (first_fields_filter _ _ Hff) in Hin.
           apply filter_In in Hin as [_ Hd]. discriminate.
      * destruct x; simpl; intros [= <- _]; tauto.
    + destruct x; simpl; intros [= <- _]; tauto.
  - intros Hw e1 e2 rows He Hf. revert H.
    unfold get_all_tables, try_except, bind.
    rewrite execute_present by exact Hw. unfold lift at 1. rewrite He.
    rewrite fetchall_present by exact Hw. unfold lift. cbn [self sqlite stdout].
    rewrite Hf.
    destruct (first_fields rows) as [x|ns] eqn:Hff.
    + assert (Hx : x = IndexError "tuple index out of range").
      { clear -Hff. revert x Hff.
        induction rows as [|[|v r] rows IH]; simpl; intros x; try discriminate.
        - now intros [= <-].
        - destruct (first_fields rows); [|discriminate].
          intros [= <-]. now apply IH. }
      subst x. unfold raise. discriminate.
    + unfold ret. intros [= <- _]. now apply first_fields_filter.
Qed.

End Records.

(** On the example a query on a table that is not there and a query that
    matches no row both return the empty list. *)
Lemma select_failure_looks_like_no_rows_witness :
  connected (self fresh_world) /\ connected (self example_world)
  /\ fst (select "users" (Some [("age", VInt 99)]) "*" None fresh_world) = Returned []
  /\ fst (select "users" (Some [("age", VInt 99)]) "*" None example_world) = Returned []
  /\ stdout (snd (select "users" (Some [("age", VInt 99)]) "*" None fresh_world))
     = (stdout fresh_world ++ ["查询数据失败: no such table: users"])%list
  /\ stdout (snd (select "users" (Some [("age", VInt 99)]) "*" None example_world))
     = stdout example_world.
Proof.
  destruct fresh_world_ready as [Hf _].
  split; [exact Hf|]. split; [exact example_world_connected|].
  edestruct (select_failure_looks_like_no_rows "users" "*" (Some [("age", VInt 99)]) None
               fresh_world example_world) as [H1 H2];
    [exact Hf | exact example_world_connected | vm_compute; reflexivity ..|].
  rewrite H1, H2. repeat apply conj; reflexivity.
Defined.

(** On the example the rows of a query become the records of the result. *)
Lemma select_returns_one_record_per_row_witness :
  connected (self example_world)
  /\ exists records,
       fst (select "users" None "name, age" None example_world) = Returned records
       /\ length records = 3.
Proof.
  split; [exact example_world_connected|].
  edestruct (select_returns_one_record_per_row "users" "name, age" None None
               example_world) as (records & H & Hl & _);
    [exact example_world_connected | vm_compute; reflexivity ..|].
  exists records. rewrite H. split; [reflexivity | exact Hl].
Defined.

(** A result that names a column twice: the record keeps the later
    value. *)
Lemma records_have_distinct_keys_witness :
  In [("name", VStr "b")] (as_records ["name"; "name"] [[VStr "a"; VStr "b"]])
  /\ NoDup (keys [("name", VStr "b")])
  /\ dict_get "name" [("name", VStr "b")] = Some (VStr "b").
Proof.
  assert (H : In [("name", VStr "b")] (as_records ["name"; "name"] [[VStr "a"; VStr "b"]]))
    by (left; reflexivity).
  split; [exact H|].
  destruct (records_have_distinct_keys _ _ _ H) as (Hn & r & Hr & Hg).
  split; [exact Hn|]. reflexivity.
Defined.

(** The catalog of the example has [sqlite_sequence]; the list does
    not. *)
Lemma get_all_tables_never_lists_sequence_witness :
  get_all_tables example_world
  = (Returned [VStr "users"], snd (get_all_tables example_world))
  /\ In "sqlite_sequence" (mini_names (sqlite example_world))
  /\ ~ In (VStr "sqlite_sequence") [VStr "users"].
Proof.
  assert (H : get_all_tables example_world
              = (Returned [VStr "users"], snd (get_all_tables example_world)))
    by (vm_compute; reflexivity).
  split; [exact H|]. split; [vm_compute; tauto|].
  exact (proj1 (get_all_tables_never_lists_sequence _ _ _ H)).
Defined.

(** ** Placeholders and parameters *)

Lemma count_char_join (c : ascii) (sep : string) (parts : list string) :
  count_char c sep = 0 ->
  count_char c (join sep parts) = list_sum (map (count_char c) parts).
Proof.
  intros Hs. induction parts as [|x parts IH]; [reflexivity|].
  destruct parts as [|y parts].
  - simpl. lia.
  - rewrite join_cons2, !count_char_append, Hs, IH. simpl. lia.
Qed.

Lemma count_predicates (sep : string) (names : list string) :
  count_char "?" sep = 0 ->
  Forall no_mark names ->
  count_char "?" (join sep (map (fun key => key ++ " = ?") names)) = length names.
Proof.
  intros Hs Hn. rewrite (count_char_join _ _ _ Hs).
  induction Hn as [|n names Hn _ IH]; [reflexivity|].
  simpl. rewrite IH, count_char_append. unfold no_mark in Hn. rewrite Hn. reflexivity.
Qed.

Lemma count_names (names : list string) :
  Forall no_mark names -> count_char "?" (join ", " names) = 0.
Proof.
  intros Hn. rewrite (count_char_join "?" ", " names eq_refl).
  induction Hn as [|n names Hn _ IH]; [reflexivity|].
  simpl. unfold no_mark in Hn. now rewrite IH, Hn.
Qed.

Lemma digits_have_no_mark (d : Decimal.uint) :
  count_char "?" (NilEmpty.string_of_uint d) = 0.
Proof. induction d; simpl; assumption || reflexivity. Qed.

Lemma str_int_has_no_mark (z : Z) : count_char "?" (str_int z) = 0.
Proof.
  unfold str_int, NilZero.string_of_int, NilZero.string_of_uint.
  destruct (Z.to_int z) as [d|d]; destruct d; simpl;
    try reflexivity; apply digits_have_no_mark.
Qed.

(** X10: when the table name and the column names contain no question
    mark, every statement the facade builds has exactly as many [?] as the
    parameter list passed with it has values, whatever the record, the
    conditions and the limit. *)
Theorem placeholders_match_parameters (table_name columns : string)
    (data conditions : record) (filter : option record) (limit : option Z) :
  no_mark table_name -> no_mark columns ->
  Forall no_mark (keys data) -> Forall no_mark (keys conditions) ->
  Forall no_mark (match filter with Some c => keys c | None => [] end) ->
  count_char "?" (insert_sql table_name data) = length (values data)
  /\ count_char "?" (fst (update_statement table_name data conditions))
     = length (snd (update_statement table_name data conditions))
  /\ count_char "?" (fst (delete_statement table_name conditions))
     = length (snd (delete_statement table_name conditions))
  /\ count_char "?" (fst (select_statement table_name filter columns limit))
     = length (snd (select_statement table_name filter columns limit)).
Proof.
  unfold no_mark. intros Ht Hc Hd Hk Hf.
  repeat apply conj.
  - rewrite insert_sql_text, !count_char_append, Ht, (count_names _ Hd), count_char_marks.
    rewrite values_length, keys_length. simpl. lia.
  - unfold update_statement, set_clause_of, where_clause_of. cbn [fst snd].
    rewrite !count_char_append, Ht.
    rewrite (count_predicates ", " _ eq_refl Hd), (count_predicates " AND " _ eq_refl Hk).
    rewrite length_app, !values_length, !keys_length. simpl. lia.
  - unfold delete_statement, where_clause_of. cbn [fst snd].
    rewrite !count_char_append, Ht, (count_predicates " AND " _ eq_refl Hk).
    rewrite values_length, keys_length. simpl. lia.
  - unfold select_statement.
    assert (Hl : forall sql, count_char "?"
                   (if truthy_int limit then sql ++ " LIMIT " ++ str_opt_int limit else sql)
                 = count_char "?" sql).
    { intros sql. destruct limit as [z|]; [|reflexivity].
      unfold truthy_int, str_opt_int.
      destruct (negb (z =? 0)%Z); [|reflexivity].
      rewrite !count_char_append, str_int_has_no_mark.
      change (count_char "?" " LIMIT ") with 0. lia. }
    destruct filter as [[|c cs]|]; cbn [fst snd]; rewrite Hl.
    + rewrite !count_char_append, Ht, Hc. reflexivity.
    + unfold where_clause_of.
      rewrite !count_char_append, Ht, Hc, (count_predicates " AND " _ eq_refl Hf).
      rewrite values_length, keys_length. simpl. lia.
    + rewrite !count_char_append, Ht, Hc. reflexivity.
Qed.

(** For the table of the example: three marks for the three values of the
    record, and two for an update of one column under one condition. *)
Lemma placeholders_match_parameters_witness :
  no_mark "users"
  /\ Forall no_mark (keys zhang_san)
  /\ count_char "?" (insert_sql "users" zhang_san) = length (values zhang_san)
  /\ count_char "?" (fst (update_statement "users" zhang_san [("id", VInt 1)]))
     = length (snd (update_statement "users" zhang_san [("id", VInt 1)])).
Proof.
  assert (Ht : no_mark "users") by reflexivity.
  assert (Hc : no_mark "*") by reflexivity.
  assert (Hd : Forall no_mark (keys zhang_san)) by (repeat constructor).
  assert (Hk : Forall no_mark (keys [("id", VInt 1)])) by (repeat constructor).
  split; [exact Ht|]. split; [exact Hd|].
  destruct (placeholders_match_parameters "users" "*" zhang_san [("id", VInt 1)]
              None None Ht Hc Hd Hk (Forall_nil _)) as (H1 & H2 & _).
  split; [exact H1 | exact H2].
Defined.

(** ** The test for a query *)

Lemma lstrip_blanks (blanks s : string) :
  all_chars isspace blanks = true -> lstrip (blanks ++ s) = lstrip s.
Proof.
  unfold all_chars. induction blanks as [|b blanks IH]; simpl; intros H; [reflexivity|].
  apply andb_prop in H as [-> H]. auto.
Qed.

Lemma rstrip_blanks (blanks : string) :
  all_chars isspace blanks = true -> rstrip blanks = "".
Proof.
  unfold all_chars. induction blanks as [|b blanks IH]; simpl; intros H; [reflexivity|].
  apply andb_prop in H as [Hb H]. now rewrite IH, Hb.
Qed.

Lemma rstrip_app_blanks (s blanks : string) :
  all_chars isspace blanks = true -> rstrip (s ++ blanks) = rstrip s.
Proof.
  intros H. induction s as [|c s IH]; simpl.
  - now apply rstrip_blanks.
  - now rewrite IH.
Qed.

Lemma strip_app_blanks (s blanks : string) :
  all_chars isspace blanks = true -> strip (s ++ blanks) = strip s.
Proof.
  intros H. unfold strip. induction s as [|c s IH]; simpl.
  - rewrite <- (append_empty_r blanks). now rewrite lstrip_blanks.
  - destruct (isspace c); [exact IH|].
    change (String c (s ++ blanks)) with (String c s ++ blanks).
    now apply rstrip_app_blanks.
Qed.

Lemma isspace_upper_char (c : ascii) : isspace (upper_char c) = isspace c.
Proof. destruct c as [[] [] [] [] [] [] [] []]; reflexivity. Qed.

Lemma upper_char_twice (c : ascii) : upper_char (upper_char c) = upper_char c.
Proof. destruct c as [[] [] [] [] [] [] [] []]; reflexivity. Qed.

Lemma upper_twice (s : string) : upper (upper s) = upper s.
Proof.
  induction s as [|c s IH]; simpl; [reflexivity|]. now rewrite upper_char_twice, IH.
Qed.

Lemma lstrip_upper (s : string) : lstrip (upper s) = upper (lstrip s).
Proof.
  induction s as [|c s IH]; simpl; [reflexivity|].
  rewrite isspace_upper_char. now destruct (isspace c).
Qed.

Lemma rstrip_upper (s : string) : rstrip (upper s) = upper (rstrip s).
Proof.
  induction s as [|c s IH]; simpl; [reflexivity|].
  rewrite IH, isspace_upper_char.
  destruct (rstrip s); simpl; [now destruct (isspace c) | reflexivity].
Qed.

(** X11: the test that makes [execute_sql] fetch instead of commit looks
    at the text with its surrounding whitespace removed and its letters in
    upper case: whitespace before or after the statement and the case of its
    letters do not change the outcome. *)
Theorem is_query_ignores_blanks_and_case (sql blanks : string) :
  all_chars isspace blanks = true ->
  is_query (blanks ++ sql) = is_query sql
  /\ is_query (sql ++ blanks) = is_query sql
  /\ is_query (upper sql) = is_query sql.
Proof.
  intros H. unfold is_query. repeat apply conj.
  - unfold strip. now rewrite lstrip_blanks.
  - now rewrite strip_app_blanks.
  - unfold strip. now rewrite lstrip_upper, rstrip_upper, upper_twice.
Qed.

(** A query in lower case after two spaces. *)
Lemma is_query_ignores_blanks_and_case_witness :
  all_chars isspace "  " = true
  /\ is_query ("  " ++ "select 1") = is_query "select 1"
  /\ is_query "select 1" = true.
Proof.
  assert (H : all_chars isspace "  " = true) by reflexivity.
  split; [exact H|]. split.
  - exact (proj1 (is_query_ignores_blanks_and_case "select 1" "  " H)).
  - reflexivity.
Defined.

(** ** Connecting again, and calling after the connection is closed *)

Section Lifecycle.

Context {E : Type} {engine : Sqlite3 E}.

(** X12: [connect] in any state of the facade.  It never changes the
    path.  When [sqlite3.connect] and [cursor()] return, the facade holds
    the new connection and cursor, whatever it held before, and the old
    connection is not closed.  When [sqlite3.connect] raises an
    [sqlite3.Error], the attributes are left as they were: a facade that
    was connected keeps its handles, a facade that was not stays
    without. *)
Theorem connect_replaces_handles_only_on_success (w : world E) (path : string) :
  db_path (self (snd (connect w))) = db_path (self w)
  /\ (forall e1 e2,
        sqlite3_connect (db_path (self w)) (sqlite w) = (inr tt, e1) ->
        connection_cursor e1 = (inr tt, e2) ->
        connect w
        = (Returned tt,
           mkWorld (mkLiteDBManager (db_path (self w)) (Some ConnectionObject)
                      (Some CursorObject))
                   e2 (stdout w ++ [("成功连接到数据库: " ++ db_path (self w))%string])%list))
  /\ (forall k msg e1,
        sqlite3_connect (db_path (self w)) (sqlite w) = (inl (Sqlite3Error k msg), e1) ->
        connect w
        = (Returned tt,
           mkWorld (self w) e1 (stdout w ++ [("连接数据库失败: " ++ msg)%string])%list))
  /\ calls_of connect path = [Spy.Connected path; Spy.CursorOpened].
Proof.
  unfold connect, try_except, bind, get_db_path, lift, set_connection,
    self_connection, set_cursor, print.
  cbn [self sqlite stdout db_path connection cursor fst snd].
  split; [|split; [|split]].
  - destruct (sqlite3_connect (db_path (self w)) (sqlite w)) as [[x|[]] e1].
    + now destruct x.
    + cbn [self sqlite stdout db_path connection cursor fst snd].
      destruct (connection_cursor e1) as [[y|[]] e2]; [now destruct y | reflexivity].
  - intros e1 e2 H1 H2. rewrite H1.
    cbn [self sqlite stdout db_path connection cursor fst snd]. now rewrite H2.
  - intros k msg e1 H1. now rewrite H1.
  - reflexivity.
Qed.

(** X13: on a connected facade whose engine refuses every statement with
    an [sqlite3.Error], as [sqlite3] does once the connection is closed, no
    method raises: the changing methods return false and the queries
    return the empty list. *)
Theorem refused_statements_never_raise (w : world E) (k : sqlite_kind) (msg : string) :
  connected (self w) ->
  (forall sql params, exists e1,
      cursor_execute sql params (sqlite w) = (inl (Sqlite3Error k msg), e1)) ->
  (forall sql seq, exists e1,
      cursor_executemany sql seq (sqlite w) = (inl (Sqlite3Error k msg), e1)) ->
  (forall t cols, fst (create_table t cols w) = Returned false)
  /\ (forall t data, fst (insert t data w) = Returned false)
  /\ (forall t first rest, fst (bulk_insert t (first :: rest) w) = Returned false)
  /\ (forall t c cols l, fst (select t c cols l w) = Returned [])
  /\ (forall t data c, fst (update t data c w) = Returned false)
  /\ (forall t c, fst (delete t c w) = Returned false)
  /\ fst (get_all_tables w) = Returned []
  /\ (forall sql p, fst (execute_sql sql p w) = Returned []).
Proof.
  intros Hw He Hm.
  assert (Hx : forall sql params, exists w',
             execute sql params w = (Raised (Sqlite3Error k msg), w')).
  { intros sql params. destruct (He sql params) as (e1 & H).
    rewrite execute_present by exact Hw. unfold lift. rewrite H. now eexists. }
  repeat apply conj.
  - intros t cols. unfold create_table, try_except, bind.
    now destruct (Hx (create_table_sql t cols) []) as (w' & ->).
  - intros t data. unfold insert, try_except, bind.
    now destruct (Hx (insert_sql t data) (values data)) as (w' & ->).
  - intros t first rest. unfold bulk_insert, try_except, bind.
    rewrite executemany_present by exact Hw. unfold lift.
    now destruct (Hm (insert_sql t first)
                    (map (fun data : dict value => values data) (first :: rest)))
      as (e1 & ->).
  - intros t c cols l. unfold select.
    destruct (select_statement t c cols l) as [sql params]. unfold try_except, bind.
    now destruct (Hx sql params) as (w' & ->).
  - intros t data c. unfold update.
    destruct (update_statement t data c) as [sql params]. unfold try_except, bind.
    now destruct (Hx sql params) as (w' & ->).
  - intros t c. unfold delete.
    destruct (delete_statement t c) as [sql params]. unfold try_except, bind.
    now destruct (Hx sql params) as (w' & ->).
  - unfold get_all_tables, try_except, bind.
    now destruct (Hx catalog_sql []) as (w' & ->).
  - intros sql p. unfold execute_sql, try_except, bind.
    now destruct (Hx sql (match p with None => [] | Some p0 => p0 end)) as (w' & ->).
Qed.

End Lifecycle.

(** After [disconnect] the facade of the example still holds its handles,
    [Mini] refuses every statement, and the methods return false or the
    empty list. *)
Lemma refused_statements_never_raise_witness :
  connected (self closed_world)
  /\ fst (insert "users" zhao_liu closed_world) = Returned false
  /\ fst (select "users" None "*" None closed_world) = Returned []
  /\ fst (get_all_tables closed_world) = Returned [].
Proof.
  assert (Hc : connected (self closed_world)) by (split; vm_compute; reflexivity).
  assert (Hu : Mini.usable (sqlite closed_world) = false) by (vm_compute; reflexivity).
  split; [exact Hc|].
  destruct (refused_statements_never_raise closed_world ProgrammingError
              Mini.closed_error Hc) as (_ & Hi & _ & Hs & _ & _ & Hg & _).
  - intros sql params. exists (sqlite closed_world).
    cbn [cursor_execute Mini.engine]. unfold Mini.do_execute. now rewrite Hu.
  - intros sql seq. exists (sqlite closed_world).
    cbn [cursor_executemany Mini.engine]. unfold Mini.do_executemany. now rewrite Hu.
  - repeat apply conj; [apply Hi | apply Hs | exact Hg].
Defined.

(** A second [connect] on the example succeeds and keeps the path; on the
    facade whose path cannot be opened it fails and changes no
    attribute. *)
Lemma connect_replaces_handles_only_on_success_witness :
  connected (self (snd (connect example_world)))
  /\ db_path (self (snd (connect example_world))) = "example.db"
  /\ self (snd (connect failed_world)) = self failed_world.
Proof.
  destruct (connect_replaces_handles_only_on_success example_world "example.db")
    as (Hp & Hs & _).
  destruct (connect_replaces_handles_only_on_success failed_world "/")
    as (_ & _ & Hf & _).
  repeat apply conj.
  - erewrite Hs; [reflexivity | vm_compute; reflexivity ..].
  - erewrite Hs; [reflexivity | vm_compute; reflexivity ..].
  - rewrite Hp. reflexivity.
  - erewrite Hf; [reflexivity | vm_compute; reflexivity].
Defined.
